(** * modarchive_dl: a shallow embedding of [modarchive_dl.py]

    The script scrapes a module page, downloads the module and maintains a
    semicolon-delimited catalogue.  This development embeds the pure and
    the file-system parts of the script:

    - Python [str] values are lists of Unicode code points ([pystr]);
    - the parsed page is a tree of text nodes and elements ([node]);
    - the file system is a finite map from paths to file contents;
    - exceptions are an explicit result type.

    The libraries the script calls are modelled as far as the script
    uses them.  Of [bs4]: elements and strings, without comments and
    other special strings.  Of [csv]: the writer and the state machine of
    the reader for the dialect in use, on the decoded text of a file;
    the UTF-8 encoding of a file, the reader's limit on the size of a
    field and failures of the operating system are left out.  The
    network is left out: the page that [fetch_html] returns is an input. *)

From Stdlib Require Import List NArith ZArith Ascii String Bool Lia DecimalString.
From stdpp Require Import base option list gmap.
Import ListNotations.

Local Open Scope N_scope.
Set Warnings "-register-all,-clear-no-such-hyp".

(** ** Text *)

Module Text.

(** A Python [str]: a sequence of code points. *)
Definition pystr : Type := list N.

(** A literal of the source, written as an ASCII string. *)
Definition ustr (s : string) : pystr :=
  List.map N_of_ascii (list_ascii_of_string s).

Definition LF : N := 10.
Definition CR : N := 13.
Definition SPACE : N := 32.
Definition DQUOTE : N := 34.
Definition COMMA : N := 44.
Definition HYPHEN : N := 45.
Definition COLON : N := 58.
Definition SEMICOLON : N := 59.
Definition UNDERSCORE : N := 95.

Definition in_range (lo hi c : N) : bool := (lo <=? c) && (c <=? hi).

(** [str.isspace] for one code point: the characters CPython's
    [_PyUnicode_IsWhitespace] accepts. *)
Definition isspace (c : N) : bool :=
  in_range 9 13 c || in_range 28 32 c || (c =? 133) || (c =? 160)
  || (c =? 5760) || in_range 8192 8202 c || (c =? 8232) || (c =? 8233)
  || (c =? 8239) || (c =? 8287) || (c =? 12288).

(** The characters of [A-Za-z0-9]. *)
Definition ascii_alnum (c : N) : bool :=
  in_range 48 57 c || in_range 65 90 c || in_range 97 122 c.

(** [str.isalnum] on the Latin-1 supplement (U+0080..U+00FF): the letters,
    the superscript digits and the vulgar fractions. *)
Definition latin1_alnum (c : N) : bool :=
  (c =? 170) || (c =? 178) || (c =? 179) || (c =? 181) || (c =? 185)
  || (c =? 186) || in_range 188 190 c || in_range 192 214 c
  || in_range 216 246 c || in_range 248 255 c.

(** [str.lstrip()], [str.rstrip()] and [str.strip()] without argument. *)
Fixpoint lstrip (s : pystr) : pystr :=
  match s with
  | [] => []
  | c :: s' => if isspace c then lstrip s' else s
  end.

Definition rstrip (s : pystr) : pystr := rev (lstrip (rev s)).

Definition strip (s : pystr) : pystr := rstrip (lstrip s).

(** [sep.join(parts)]. *)
Fixpoint join (sep : pystr) (parts : list pystr) : pystr :=
  match parts with
  | [] => []
  | [p] => p
  | p :: ps => p ++ sep ++ join sep ps
  end.

(** [c in chars] for a one-character string [c]. *)
Definition char_in (c : N) (chars : pystr) : bool :=
  existsb (N.eqb c) chars.

Definition pystr_eqb (a b : pystr) : bool := bool_decide (a = b).

(** Whether a string starts, or ends, with a whitespace character. *)
Definition leading_space (s : pystr) : bool :=
  match s with
  | c :: _ => isspace c
  | [] => false
  end.

Definition trailing_space (s : pystr) : bool := leading_space (rev s).

(** The character class [[A-Za-z0-9 _-]]. *)
Definition ascii_allowed (c : N) : bool :=
  ascii_alnum c || (c =? SPACE) || (c =? UNDERSCORE) || (c =? HYPHEN).

End Text.
Export Text.

(** ** The file-name sanitiser *)

Section Sanitize.

(** [str.isalnum] beyond U+00FF is given by the interpreter's Unicode
    database; it is a parameter of the development. *)
Variable alnum_beyond_latin1 : N -> bool.

Definition isalnum (c : N) : bool :=
  if c <? 128 then ascii_alnum c
  else if c <? 256 then latin1_alnum c
  else alnum_beyond_latin1 c.

(** [c.isalnum() or c in " _-"] *)
Definition keep_char (c : N) : bool := isalnum c || char_in c (ustr " _-").

(** [def sanitize_filename(s)]: the characters [c] of [s] with
    [c.isalnum() or c in " _-"], joined and stripped. *)
Definition sanitize_filename (s : pystr) : pystr :=
  strip (List.filter keep_char s).

End Sanitize.

(** ** Exceptions *)

Inductive exn : Type :=
  | AttributeError   (* ['NoneType' object has no attribute 'strip'] *)
  | NameError        (* [name ... is not defined] *)
  | IndexError       (* [list index out of range] *)
  | KeyError         (* a missing dictionary key *)
  | ValueError       (* [dict contains fields not in fieldnames] *)
  | CsvError.        (* [_csv.Error] *)

Inductive result (A : Type) : Type :=
  | Ok (a : A)
  | Raise (e : exn).
Arguments Ok {A} a.
Arguments Raise {A} e.

Definition bind {A B} (r : result A) (k : A -> result B) : result B :=
  match r with
  | Ok a => k a
  | Raise e => Raise e
  end.

Notation "'let*' x ':=' r 'in' k" := (bind r (fun x => k))
  (at level 10, x name, r at level 100, k at level 200).

(** ** The parsed page *)

Module Soup.

(** A parsed document: text nodes and elements.  Tag names are lower case,
    as the HTML parser delivers them. *)
Inductive node : Type :=
  | Text (s : pystr)
  | Elem (tag : pystr) (children : list node).

(** An element together with its position: the siblings after it and the
    forest of everything that follows its start tag in document order. *)
Record located : Type := Located {
  tag_of : pystr;
  children_of : list node;
  next_siblings : list node;
  following : list node
}.

(** The elements of a subtree in document order, each with its position.
    [sibs] are the later siblings of [n], [rest] what follows its parent. *)
Fixpoint locate (n : node) (sibs rest : list node) : list located :=
  match n with
  | Text _ => []
  | Elem t cs =>
      Located t cs sibs (cs ++ sibs ++ rest)
      :: (fix locate_children (l : list node) : list located :=
            match l with
            | [] => []
            | c :: l' => locate c l' (sibs ++ rest) ++ locate_children l'
            end) cs
  end.

Fixpoint locate_forest (l rest : list node) : list located :=
  match l with
  | [] => []
  | c :: l' => locate c l' rest ++ locate_forest l' rest
  end.

(** All strings below a node, in document order. *)
Fixpoint strings_of (n : node) : list pystr :=
  match n with
  | Text s => [s]
  | Elem _ cs => List.flat_map strings_of cs
  end.

(** [tag.get_text(separator=sep)]; [tag.text] joins with the
    empty separator. *)
Definition get_text (sep : pystr) (cs : list node) : pystr :=
  join sep (List.flat_map strings_of cs).

Definition text (cs : list node) : pystr := get_text [] cs.

Definition named (name : pystr) (n : node) : bool :=
  match n with
  | Text _ => false
  | Elem t _ => pystr_eqb t name
  end.

(** [soup.find_all(names)]: the elements whose tag is one of [names]. *)
Definition find_all (names : list pystr) (soup : list node) : list located :=
  List.filter (fun h => existsb (pystr_eqb (tag_of h)) names)
              (locate_forest soup []).

(** [soup.find(name)] *)
Definition find_tag (name : pystr) (soup : list node) : option located :=
  head (find_all [name] soup).

(** [header.find_next_sibling(name)] *)
Definition find_next_sibling (name : pystr) (h : located) : option node :=
  List.find (named name) (next_siblings h).

(** The elements of a forest in document order. *)
Fixpoint elements (n : node) : list node :=
  match n with
  | Text _ => []
  | Elem _ cs => n :: List.flat_map elements cs
  end.

(** [header.find_next(name)]: the first element of that name after the
    header's start tag. *)
Definition find_next (name : pystr) (h : located) : option node :=
  List.find (named name) (List.flat_map elements (following h)).

(** [header.find(text=True, recursive=False)]: the first child that is a
    string, or [None]. *)
Fixpoint direct_text (cs : list node) : option pystr :=
  match cs with
  | [] => None
  | Text s :: _ => Some s
  | Elem _ _ :: cs' => direct_text cs'
  end.

Definition node_children (n : node) : list node :=
  match n with
  | Text _ => []
  | Elem _ cs => cs
  end.

(** [ul.findAll(name)]: the descendants of that name. *)
Definition findAll (name : pystr) (n : node) : list node :=
  List.filter (named name) (List.flat_map elements (node_children n)).

End Soup.
Export Soup.

(** ** More string operations used by the scraper *)

Module Lines.

(** The line boundaries of [str.splitlines]. *)
Definition is_linebreak (c : N) : bool :=
  in_range 10 13 c || in_range 28 30 c || (c =? 133) || (c =? 8232)
  || (c =? 8233).

(** [s.splitlines()]: a carriage return followed by a line feed is one
    boundary; no empty line is reported after a final boundary. *)
Fixpoint splitlines (s : pystr) : list pystr :=
  match s with
  | [] => []
  | c :: s' =>
      if is_linebreak c then
        [] :: match s' with
              | c' :: s'' =>
                  if (c =? CR) && (c' =? LF) then splitlines s''
                  else splitlines s'
              | [] => []
              end
      else
        match splitlines s' with
        | [] => [[c]]
        | l :: ls => (c :: l) :: ls
        end
  end.

Fixpoint starts_with (needle hay : pystr) : bool :=
  match needle, hay with
  | [], _ => true
  | _ :: _, [] => false
  | a :: needle', b :: hay' => (a =? b) && starts_with needle' hay'
  end.

(** [needle in hay] *)
Fixpoint contains (needle hay : pystr) : bool :=
  starts_with needle hay
  || match hay with
     | [] => false
     | _ :: hay' => contains needle hay'
     end.

(** [line.split(":", 1)] *)
Fixpoint split_colon_once (line : pystr) : list pystr :=
  match line with
  | [] => [[]]
  | c :: line' =>
      if c =? COLON then [[]; line']
      else match split_colon_once line' with
           | h :: t => (c :: h) :: t
           | [] => [[c]]
           end
  end.

(** [line.split(":", 1)[1].strip()] *)
Definition value_of (line : pystr) : result pystr :=
  match nth_error (split_colon_once line) 1%nat with
  | Some v => Ok (strip v)
  | None => Raise IndexError
  end.

End Lines.
Export Lines.

(** ** The metadata scraper *)

Module Scraper.

(** The dictionary [data] of [scrape_metadata]: its six keys are fixed. *)
Record metadata : Type := Metadata {
  mod_id : pystr;
  md5 : pystr;
  format : pystr;
  channels : pystr;
  genre : pystr;
  artist : pystr
}.

Definition Unknown : pystr := ustr "Unknown".

(** [{k: "Unknown" for k in [...]}] *)
Definition all_unknown : metadata :=
  Metadata Unknown Unknown Unknown Unknown Unknown Unknown.

Definition set_mod_id (v : pystr) (d : metadata) : metadata :=
  Metadata v (md5 d) (format d) (channels d) (genre d) (artist d).
Definition set_md5 (v : pystr) (d : metadata) : metadata :=
  Metadata (mod_id d) v (format d) (channels d) (genre d) (artist d).
Definition set_format (v : pystr) (d : metadata) : metadata :=
  Metadata (mod_id d) (md5 d) v (channels d) (genre d) (artist d).
Definition set_channels (v : pystr) (d : metadata) : metadata :=
  Metadata (mod_id d) (md5 d) (format d) v (genre d) (artist d).
Definition set_genre (v : pystr) (d : metadata) : metadata :=
  Metadata (mod_id d) (md5 d) (format d) (channels d) v (artist d).
Definition set_artist (v : pystr) (d : metadata) : metadata :=
  Metadata (mod_id d) (md5 d) (format d) (channels d) (genre d) v.

(** The first loop: the first heading among [h6], [h3], [h2], [h4] whose
    stripped text is ["Info"] selects the section, its next sibling [ul]
    or else the next [p]. *)
Definition is_info_header (h : located) : bool :=
  pystr_eqb (strip (text (children_of h))) (ustr "Info").

Definition info_headers (soup : list node) : list located :=
  find_all [ustr "h6"; ustr "h3"; ustr "h2"; ustr "h4"] soup.

Definition find_info_section (soup : list node) : option node :=
  match List.find is_info_header (info_headers soup) with
  | Some header =>
      match find_next_sibling (ustr "ul") header with
      | Some ul => Some ul
      | None => find_next (ustr "p") header
      end
  | None => None
  end.

(** The body of [for line in text.splitlines()]: the [if]/[elif] chain. *)
Definition scan_line (data : metadata) (line : pystr) : result metadata :=
  if contains (ustr "Mod Archive ID:") line then
    let* v := value_of line in Ok (set_mod_id v data)
  else if contains (ustr "MD5:") line then
    let* v := value_of line in Ok (set_md5 v data)
  else if contains (ustr "Format:") line then
    let* v := value_of line in Ok (set_format v data)
  else if contains (ustr "Channels:") line then
    let* v := value_of line in Ok (set_channels v data)
  else if contains (ustr "Genre:") line then
    let* v := value_of line in Ok (set_genre v data)
  else Ok data.

Fixpoint scan_lines (data : metadata) (lines : list pystr) : result metadata :=
  match lines with
  | [] => Ok data
  | line :: lines' =>
      let* data' := scan_line data line in scan_lines data' lines'
  end.

(** [info_section.get_text(separator="\n").splitlines()] *)
Definition info_lines (section : node) : list pystr :=
  splitlines (get_text [LF] (node_children section)).

Definition artist_label : pystr := ustr "Registered Artist(s):".

(** [', '.join(li.text.strip() for li in artists_ul.findAll('li'))] *)
Definition artists_of (ul : node) : pystr :=
  join (ustr ", ")
       (List.map (fun li => strip (text (node_children li)))
                 (findAll (ustr "li") ul)).

(** The second loop, over every [h2] of the page, without [break]:
    [header.find(text=True, recursive=False).strip()] raises when the
    heading has no string child. *)
Fixpoint artist_loop (data : metadata) (headers : list located)
  : result metadata :=
  match headers with
  | [] => Ok data
  | header :: headers' =>
      match direct_text (children_of header) with
      | None => Raise AttributeError
      | Some t =>
          if pystr_eqb (strip t) artist_label then
            match find_next_sibling (ustr "ul") header with
            | Some artists_ul =>
                artist_loop (set_artist (artists_of artists_ul) data) headers'
            | None => artist_loop data headers'
            end
          else artist_loop data headers'
      end
  end.

(** [def scrape_metadata(soup)].  The unused [soup.find("##", text="Info")]
    of its first line has no effect and is left out. *)
Definition scrape_metadata (soup : list node) : result metadata :=
  let info_section := find_info_section soup in
  let data := all_unknown in
  let* data :=
    match info_section with
    | Some section => scan_lines data (info_lines section)
    | None => Ok data
    end in
  artist_loop data (find_all [ustr "h2"] soup).

(** *** The notions the properties of the scraper are stated with *)

(** A heading that has no string child: [header.find(text=True,
    recursive=False)] is [None] for it. *)
Definition lacks_direct_text (h : located) : bool :=
  match direct_text (children_of h) with
  | Some _ => false
  | None => true
  end.

(** A level-2 heading whose direct text trims to the artist label. *)
Definition is_artist_header (h : located) : bool :=
  match direct_text (children_of h) with
  | Some t => pystr_eqb (strip t) artist_label
  | None => false
  end.

Definition h2_headers (soup : list node) : list located :=
  find_all [ustr "h2"] soup.

Definition no_info_heading (soup : list node) : bool :=
  negb (existsb is_info_header (info_headers soup)).

Definition no_artist_heading (soup : list node) : bool :=
  negb (existsb is_artist_header (h2_headers soup)).

(** The lists that follow the artist headings, in document order. *)
Definition artist_lists (headers : list located) : list node :=
  omap (fun h => if is_artist_header h
                 then find_next_sibling (ustr "ul") h else None) headers.

(** The artist field as the code computes it: the last artist heading
    that has a list after it decides. *)
Definition artist_by_last_list (soup : list node) : pystr :=
  match last (artist_lists (h2_headers soup)) with
  | Some ul => artists_of ul
  | None => Unknown
  end.

(** The artist field as the specification words it: the first artist
    heading decides, through its list if it has one. *)
Definition artist_by_first_match (soup : list node) : pystr :=
  match List.find is_artist_header (h2_headers soup) with
  | Some h =>
      match find_next_sibling (ustr "ul") h with
      | Some ul => artists_of ul
      | None => Unknown
      end
  | None => Unknown
  end.

End Scraper.
Export Scraper.

(** ** Title resolution in [main] *)

Module Orchestrator.

(** The parsed command line: [args.mod_id], [args.artist], [args.name],
    [args.genre]; an absent option is [None]. *)
Record Args : Type := MkArgs {
  args_mod_id : Z;
  args_artist : option pystr;
  args_name : option pystr;
  args_genre : option pystr
}.

(** The values a name can be bound to, as far as formatting them goes. *)
Inductive pyval : Type :=
  | VInt (z : Z)
  | VStr (s : pystr)
  | VObject.

(** The names bound at module level when [main] runs: the imports, the
    three constants, the functions and the names of the [__main__] block. *)
Definition module_globals : list (string * pyval) :=
  [ ("os", VObject); ("csv", VObject); ("requests", VObject);
    ("BeautifulSoup", VObject);
    ("CSV_FILENAME", VStr (ustr "modules_catalog.csv"));
    ("DOWNLOAD_URL_TEMPLATE",
       VStr (ustr "https://api.modarchive.org/downloads.php?moduleid={mod_id}"));
    ("MODULE_PAGE_TEMPLATE",
       VStr (ustr "https://modarchive.org/index.php?request=view_by_moduleid&query={mod_id}"));
    ("fetch_html", VObject); ("scrape_metadata", VObject);
    ("download_module", VObject); ("ensure_csv_exists", VObject);
    ("sanitize_filename", VObject); ("update_metadata_csv", VObject);
    ("main", VObject); ("argparse", VObject); ("parser", VObject);
    ("args", VObject) ]%string.

(** The local names of [main] that are bound when the title is computed. *)
Definition main_locals : list (string * pyval) :=
  [ ("args", VObject); ("soup", VObject); ("meta", VObject);
    ("title_header", VObject) ]%string.

(** Reading a name: the locals of the function, then the module.  (The
    builtins come last; none of them is called [mod_id].) *)
Fixpoint lookup_name (name : string) (scope : list (string * pyval))
  : option pyval :=
  match scope with
  | [] => None
  | (n, v) :: scope' =>
      if String.eqb n name then Some v else lookup_name name scope'
  end.

Definition decimal (z : Z) : pystr :=
  ustr (DecimalString.NilZero.string_of_int (Z.to_int z)).

(** [format(v)] inside an f-string; the rendering of other objects does
    not matter here. *)
Definition format_value (v : pyval) : pystr :=
  match v with
  | VInt z => decimal z
  | VStr s => s
  | VObject => ustr "<object>"
  end.

(** [f"module_{mod_id}"] *)
Definition fallback_title : result pystr :=
  match lookup_name "mod_id" (main_locals ++ module_globals) with
  | Some v => Ok (ustr "module_" ++ format_value v)
  | None => Raise NameError
  end.

(** [title_header = soup.find("h1") or soup.find("h2")]: an element is
    always true. *)
Definition title_header (soup : list node) : option located :=
  match find_tag (ustr "h1") soup with
  | Some h => Some h
  | None => find_tag (ustr "h2") soup
  end.

(** [title = (title_header.find(text=True, recursive=False).strip()
              if title_header else f"module_{mod_id}")
             if args.name is None else args.name] *)
Definition resolve_title (args : Args) (soup : list node) : result pystr :=
  match args_name args with
  | None =>
      match title_header soup with
      | Some h =>
          match direct_text (children_of h) with
          | Some t => Ok (strip t)
          | None => Raise AttributeError
          end
      | None => fallback_title
      end
  | Some name => Ok name
  end.

(** [main] up to the assignment of [title]; [soup] is the page that
    [fetch_html(args.mod_id)] returned. *)
Definition main_title (args : Args) (soup : list node) : result pystr :=
  let* meta := scrape_metadata soup in
  resolve_title args soup.

End Orchestrator.
Export Orchestrator.

(** ** The [csv] module, as the script uses it *)

Module Csv.

(** *** Writing: [csv.writer] with [QUOTE_MINIMAL], the quote character
    [DQUOTE], doubled quotes and the line terminator [\r\n]. *)

Definition is_special (delimiter c : N) : bool :=
  (c =? delimiter) || (c =? DQUOTE) || (c =? CR) || (c =? LF).

Definition needs_quotes (delimiter : N) (f : pystr) : bool :=
  existsb (is_special delimiter) f.

Definition double_quotes (f : pystr) : pystr :=
  List.flat_map (fun c => if c =? DQUOTE then [DQUOTE; DQUOTE] else [c]) f.

Definition write_field (delimiter : N) (f : pystr) : pystr :=
  if needs_quotes delimiter f then DQUOTE :: double_quotes f ++ [DQUOTE]
  else f.

(** [writer.writerow(row)]: a row made of one empty field is written as
    a pair of quotes. *)
Definition writerow (delimiter : N) (row : list pystr) : pystr :=
  match row with
  | [[]] => [DQUOTE; DQUOTE]
  | _ => join [delimiter] (List.map (write_field delimiter) row)
  end ++ [CR; LF].

(** *** Reading: the lines of a file opened with an empty [newline] and the
    state machine of [csv.reader]. *)

(** [for line in f]: a line ends after [\n], after [\r] and after [\r\n];
    the endings are kept. *)
Fixpoint readlines (s : pystr) : list pystr :=
  match s with
  | [] => []
  | c :: s' =>
      if c =? LF then [c] :: readlines s'
      else if c =? CR then
        match s' with
        | c' :: s'' =>
            if c' =? LF then [c; c'] :: readlines s''
            else [c] :: readlines s'
        | [] => [[c]]
        end
      else
        match readlines s' with
        | [] => [[c]]
        | l :: ls => (c :: l) :: ls
        end
  end.

(** What the state machine consumes: the characters of a line, then the
    end of the line. *)
Inductive event : Type :=
  | Chr (c : N)
  | EOL.

Definition line_events (line : pystr) : list event :=
  List.map Chr line ++ [EOL].

Inductive pstate : Type :=
  | START_RECORD
  | START_FIELD
  | IN_FIELD
  | IN_QUOTED_FIELD
  | QUOTE_IN_QUOTED_FIELD
  | EAT_CRNL.

Record parser : Type := Parser {
  state : pstate;
  fields : list pystr;
  field : pystr
}.

Definition fresh : parser := Parser START_RECORD [] [].

Definition goto (s : pstate) (p : parser) : parser :=
  Parser s (fields p) (field p).

(** [parse_save_field] and [parse_add_char] *)
Definition save_field (p : parser) : parser :=
  Parser (state p) (fields p ++ [field p]) [].

Definition add_char (c : N) (p : parser) : parser :=
  Parser (state p) (fields p) (field p ++ [c]).

Definition is_newline (c : N) : bool := (c =? LF) || (c =? CR).

(** The case [START_FIELD] of [parse_process_char]. *)
Definition start_field (delimiter : N) (p : parser) (ev : event) : parser :=
  match ev with
  | EOL => goto START_RECORD (save_field p)
  | Chr c =>
      if is_newline c then goto EAT_CRNL (save_field p)
      else if c =? DQUOTE then goto IN_QUOTED_FIELD p
      else if c =? delimiter then goto START_FIELD (save_field p)
      else goto IN_FIELD (add_char c p)
  end.

(** [parse_process_char] for a dialect without escape character, not
    strict, not skipping initial spaces. *)
Definition process_char (delimiter : N) (p : parser) (ev : event)
  : result parser :=
  match state p with
  | START_RECORD =>
      match ev with
      | EOL => Ok p
      | Chr c =>
          if is_newline c then Ok (goto EAT_CRNL p)
          else Ok (start_field delimiter p ev)
      end
  | START_FIELD => Ok (start_field delimiter p ev)
  | IN_FIELD =>
      match ev with
      | EOL => Ok (goto START_RECORD (save_field p))
      | Chr c =>
          if is_newline c then Ok (goto EAT_CRNL (save_field p))
          else if c =? delimiter then Ok (goto START_FIELD (save_field p))
          else Ok (add_char c p)
      end
  | IN_QUOTED_FIELD =>
      match ev with
      | EOL => Ok p
      | Chr c =>
          if c =? DQUOTE then Ok (goto QUOTE_IN_QUOTED_FIELD p)
          else Ok (add_char c p)
      end
  | QUOTE_IN_QUOTED_FIELD =>
      match ev with
      | EOL => Ok (goto START_RECORD (save_field p))
      | Chr c =>
          if c =? DQUOTE then Ok (goto IN_QUOTED_FIELD (add_char c p))
          else if c =? delimiter then Ok (goto START_FIELD (save_field p))
          else if is_newline c then Ok (goto EAT_CRNL (save_field p))
          else Ok (goto IN_FIELD (add_char c p))
      end
  | EAT_CRNL =>
      match ev with
      | EOL => Ok (goto START_RECORD p)
      | Chr c => if is_newline c then Ok p else Raise CsvError
      end
  end.

Definition is_start_record (s : pstate) : bool :=
  match s with START_RECORD => true | _ => false end.

Definition is_in_quoted_field (s : pstate) : bool :=
  match s with IN_QUOTED_FIELD => true | _ => false end.

Definition is_empty (s : pystr) : bool :=
  match s with [] => true | _ => false end.

(** The end of the input: a record that is still open is returned. *)
Definition at_eof (p : parser) : list (list pystr) :=
  if negb (is_empty (field p)) || is_in_quoted_field (state p)
  then [fields (save_field p)]
  else [].

(** The records of a stream of events: a record is complete when the
    machine is back in [START_RECORD] at the end of a line. *)
Fixpoint records (delimiter : N) (p : parser) (evs : list event)
  : result (list (list pystr)) :=
  match evs with
  | [] => Ok (at_eof p)
  | ev :: evs' =>
      let* p' := process_char delimiter p ev in
      match ev with
      | EOL =>
          if is_start_record (state p') then
            let* rs := records delimiter fresh evs' in Ok (fields p' :: rs)
          else records delimiter p' evs'
      | Chr _ => records delimiter p' evs'
      end
  end.

(** [list(csv.reader(f, delimiter=...))] on the text of the file. *)
Definition reader (delimiter : N) (content : pystr)
  : result (list (list pystr)) :=
  records delimiter fresh (List.flat_map line_events (readlines content)).

(** *** Dictionaries of rows *)

(** A row of [csv.DictReader]: the values under string keys ([None] is
    the filler for a short row) and, under the key [None], the surplus
    fields of a long row. *)
Record dictrow : Type := DictRow {
  items : gmap pystr (option pystr);
  surplus : option (list pystr)
}.

(** Filling a dictionary in order, as [dict(zip(keys, values))] and a
    dictionary display do: a later entry replaces an earlier one. *)
Definition dict_of (entries : list (pystr * option pystr))
  : gmap pystr (option pystr) :=
  fold_left (fun m kv => <[kv.1 := kv.2]> m) entries ∅.

(** [DictReader.__next__] for one row of the reader. *)
Definition make_row (fieldnames row : list pystr) : dictrow :=
  let d := dict_of (zip fieldnames (List.map Some row)) in
  if (length fieldnames <? length row)%nat then
    DictRow d (Some (drop (length fieldnames) row))
  else
    DictRow (fold_left (fun m k => <[k := None]> m)
                       (drop (length row) fieldnames) d) None.

(** [list(csv.DictReader(f, delimiter=...))]: the first row gives the
    field names, empty rows are skipped. *)
Definition DictReader (delimiter : N) (content : pystr)
  : result (list dictrow) :=
  let* rows := reader delimiter content in
  match rows with
  | [] => Ok []
  | fieldnames :: data =>
      Ok (List.map (make_row fieldnames)
                   (List.filter (fun r => negb (bool_decide (r = []))) data))
  end.

(** [DictWriter._dict_to_list] with [extrasaction="raise"] and
    the empty [restval]; the writer renders [None] as the empty string. *)
Definition dict_to_list (fieldnames : list pystr) (r : dictrow)
  : result (list pystr) :=
  if bool_decide (surplus r = None)
     && bool_decide (dom (items r) ⊆ (list_to_set fieldnames : gset pystr))
  then Ok (List.map (fun k => default [] (default None (items r !! k)))
                    fieldnames)
  else Raise ValueError.

(** The value a dictionary filled from [entries] holds under [k]: the
    one of the last entry with that key, [dflt] without such an entry. *)
Fixpoint assoc_last (k : pystr) (entries : list (pystr * option pystr))
  (dflt : option (option pystr)) : option (option pystr) :=
  match entries with
  | [] => dflt
  | (k', v) :: entries' =>
      assoc_last k entries' (if bool_decide (k' = k) then Some v else dflt)
  end.

(** *** Notions the facts about the reader are stated with *)

(** A delimiter that is neither the quote character nor a line ending. *)
Definition ordinary (delimiter : N) : bool :=
  negb ((delimiter =? DQUOTE) || is_newline delimiter).

(** Whether a line ends after the character [c], given the character
    that follows it ([None] at the end of the file). *)
Definition eol_after (c : N) (next : option N) : bool :=
  match next with
  | None => true
  | Some c' => (c =? LF) || ((c =? CR) && negb (c' =? LF))
  end.

(** The events of a piece of text that is followed by [next]. *)
Fixpoint events_of (s : pystr) (next : option N) : list event :=
  match s with
  | [] => []
  | c :: s' =>
      Chr c
      :: (if eol_after c (match s' with [] => next | c' :: _ => Some c' end)
          then [EOL] else [])
      ++ events_of s' next
  end.

(** The text of a row before its line terminator. *)
Definition row_body (delimiter : N) (row : list pystr) : pystr :=
  match row with
  | [[]] => [DQUOTE; DQUOTE]
  | _ => join [delimiter] (List.map (write_field delimiter) row)
  end.

(** The character [x] that ends a field, and [y] after it: the
    delimiter, or the carriage return of the line terminator. *)
Definition ends_field (delimiter x y : N) : Prop :=
  x = delimiter \/ (x = CR /\ y = LF).

(** The state of the machine after a field and the character ending it. *)
Definition after_field (delimiter x : N) : pstate :=
  if x =? delimiter then START_FIELD else EAT_CRNL.

Definition is_eol (ev : event) : bool :=
  match ev with EOL => true | Chr _ => false end.

(** Running the machine over events none of which completes a record. *)
Fixpoint advance (delimiter : N) (p : parser) (evs : list event)
  : option parser :=
  match evs with
  | [] => Some p
  | ev :: evs' =>
      match process_char delimiter p ev with
      | Ok p' =>
          if is_eol ev && is_start_record (state p') then None
          else advance delimiter p' evs'
      | Raise _ => None
      end
  end.

End Csv.
Export Csv.

(** ** The catalogue file *)

Module Catalog.

(** The files of the working directory: a path names at most one file,
    whose content is its decoded text.  Two spellings of a path count as
    two files. *)
Abbreviation filesystem := (gmap pystr pystr).

(** [os.path.exists(path)] *)
Definition path_exists (fs : filesystem) (path : pystr) : bool :=
  bool_decide (is_Some (fs !! path)).

Definition CSV_FILENAME : pystr := ustr "modules_catalog.csv".

(** The list [fieldnames], also the header row of [ensure_csv_exists]. *)
Definition fieldnames : list pystr :=
  [ ustr "ModArchiveID"; ustr "Name"; ustr "MD5"; ustr "Format";
    ustr "Channels"; ustr "Genre"; ustr "Artist"; ustr "RelativePath" ].

(** [def ensure_csv_exists(csv_path)]: [csv.writer(f)] has the default
    delimiter of the module, the comma. *)
Definition ensure_csv_exists (csv_path : pystr) (fs : filesystem)
  : filesystem :=
  if path_exists fs csv_path then fs
  else <[csv_path := writerow COMMA fieldnames]> fs.

(** The dictionary [new_row] that [main] passes: a record of the
    catalogue, every field a string. *)
Record ModuleRecord : Type := MkRecord {
  ModArchiveID : pystr;
  Name : pystr;
  MD5 : pystr;
  Format : pystr;
  Channels : pystr;
  Genre : pystr;
  Artist : pystr;
  RelativePath : pystr
}.

Definition record_fields (r : ModuleRecord) : list pystr :=
  [ ModArchiveID r; Name r; MD5 r; Format r; Channels r; Genre r;
    Artist r; RelativePath r ].

Definition to_dict (r : ModuleRecord) : dictrow :=
  DictRow (dict_of (zip fieldnames (List.map Some (record_fields r)))) None.

(** [for row in reader: if row["ModArchiveID"] != str(new_row["ModArchiveID"]):
    rows.append(row)] *)
Fixpoint keep_others (key : pystr) (existing : list dictrow)
  : result (list dictrow) :=
  match existing with
  | [] => Ok []
  | row :: existing' =>
      match items row !! ustr "ModArchiveID" with
      | None => Raise KeyError
      | Some v =>
          let* rows := keep_others key existing' in
          Ok (if bool_decide (v = Some key) then rows else row :: rows)
      end
  end.

(** [writer.writerows(rows)]: the rows are written one after the other;
    what was written before a failing row stays in the file. *)
Fixpoint writerows (rows : list dictrow) (written : pystr)
  : pystr * option exn :=
  match rows with
  | [] => (written, None)
  | row :: rows' =>
      match dict_to_list fieldnames row with
      | Ok values => writerows rows' (written ++ writerow SEMICOLON values)
      | Raise e => (written, Some e)
      end
  end.

(** How a call ends: normally, or with an exception; either way with the
    files it leaves behind. *)
Inductive outcome : Type :=
  | Returned (fs : filesystem)
  | Raised (e : exn) (fs : filesystem).

Definition files (o : outcome) : filesystem :=
  match o with
  | Returned fs => fs
  | Raised _ fs => fs
  end.

(** [def update_metadata_csv(csv_path, new_row)].  The codec name
    [utf -8] of the reading [open] is an alias of UTF-8. *)
Definition update_metadata_csv (csv_path : pystr) (new_row : ModuleRecord)
  (fs : filesystem) : outcome :=
  let fs := ensure_csv_exists CSV_FILENAME fs in
  let loaded :=
    match fs !! csv_path with
    | Some content =>
        let* existing := DictReader SEMICOLON content in
        keep_others (ModArchiveID new_row) existing
    | None => Ok []
    end in
  match loaded with
  | Raise e => Raised e fs
  | Ok rows =>
      let rows := rows ++ [to_dict new_row] in
      let header := writerow SEMICOLON fieldnames in
      match writerows rows header with
      | (content, None) => Returned (<[csv_path := content]> fs)
      | (content, Some e) => Raised e (<[csv_path := content]> fs)
      end
  end.

(** A sequence of calls on the same file; it stops at the first call
    that raises. *)
Fixpoint update_all (csv_path : pystr) (new_rows : list ModuleRecord)
  (fs : filesystem) : outcome :=
  match new_rows with
  | [] => Returned fs
  | r :: new_rows' =>
      match update_metadata_csv csv_path r fs with
      | Returned fs' => update_all csv_path new_rows' fs'
      | Raised e fs' => Raised e fs'
      end
  end.

(** What a catalogue file holds: the header row, then one row per record. *)
Definition catalog_text (rows : list ModuleRecord) : pystr :=
  writerow SEMICOLON fieldnames
  ++ List.concat (List.map (fun r => writerow SEMICOLON (record_fields r)) rows).

Definition same_id (key : pystr) (r : ModuleRecord) : bool :=
  bool_decide (ModArchiveID r = key).

(** Replacing the row of a key: the other rows keep their order, the new
    record goes last. *)
Definition upsert (rows : list ModuleRecord) (r : ModuleRecord)
  : list ModuleRecord :=
  List.filter (fun x => negb (same_id (ModArchiveID r) x)) rows ++ [r].

Definition upsert_all (rows : list ModuleRecord) (rs : list ModuleRecord)
  : list ModuleRecord :=
  fold_left upsert rs rows.

(** The data rows of a file, as the script reads them back. *)
Definition data_rows (fs : filesystem) (path : pystr)
  : option (list (list pystr)) :=
  match fs !! path with
  | Some content =>
      match reader SEMICOLON content with
      | Ok (_ :: data) => Some data
      | _ => None
      end
  | None => None
  end.

(** The file at [path] holds the catalogue [rows]; a file that does not
    exist yet holds none. *)
Definition catalog_at (fs : filesystem) (path : pystr)
  (rows : list ModuleRecord) : Prop :=
  fs !! path = Some (catalog_text rows) \/ (fs !! path = None /\ rows = []).

(** The record most recently passed in for a key. *)
Definition latest (key : pystr) (rs : list ModuleRecord)
  : option ModuleRecord :=
  last (List.filter (same_id key) rs).

(** Two records of the catalogue, for concrete runs. *)
Definition record_five (name : string) : ModuleRecord :=
  MkRecord (ustr "5") (ustr name) (ustr "abcd1234") (ustr "IT") (ustr "8")
           (ustr "Chiptune") (ustr "Alice") (ustr "./Chiptune/song-Alice.it").

Definition other_csv : pystr := ustr "other.csv".

(** A working directory without files. *)
Definition empty_directory : filesystem := ∅.

End Catalog.
Export Catalog.

(** ** Sample pages *)

Module Pages.

Definition h2 (cs : list node) : node := Elem (ustr "h2") cs.
Definition h3 (cs : list node) : node := Elem (ustr "h3") cs.
Definition ul (cs : list node) : node := Elem (ustr "ul") cs.
Definition li (s : string) : node := Elem (ustr "li") [Text (ustr s)].

(** A page without any heading. *)
Definition page_plain : list node :=
  [Elem (ustr "p") [Text (ustr "No module here.")]].

(** A page whose only heading wraps its text in another element:
    [<h2><b>Title</b></h2>]. *)
Definition page_nested_h2 : list node :=
  [h2 [Elem (ustr "b") [Text (ustr "Title")]]].

(** Two artist headings, each followed by its list. *)
Definition page_two_artists : list node :=
  [ h2 [Text (ustr "Registered Artist(s):")]; ul [li "Alice"];
    h2 [Text (ustr "Registered Artist(s):")]; ul [li "Bob"] ].

(** The info section of the specification's example. *)
Definition sample_lines : list pystr :=
  [ ustr "Mod Archive ID: 1234"; ustr "MD5: abcd1234"; ustr "Format: IT";
    ustr "Channels: 8"; ustr "Genre: Chiptune" ].

Definition sample_info : node :=
  ul [ li "Mod Archive ID: 1234"; li "MD5: abcd1234"; li "Format: IT";
       li "Channels: 8"; li "Genre: Chiptune" ].

Definition sample_metadata : metadata :=
  Metadata (ustr "1234") (ustr "abcd1234") (ustr "IT") (ustr "8")
           (ustr "Chiptune") Unknown.

(** The example under a plain heading, [<h3>Info</h3>], and under a
    level-2 heading that wraps its text, [<h2><b>Info</b></h2>]. *)
Definition page_info : list node :=
  [h3 [Text (ustr "Info")]; sample_info].

Definition page_info_nested : list node :=
  [h2 [Elem (ustr "b") [Text (ustr "Info")]]; sample_info].

End Pages.
Export Pages.

(** ** The requests, the download and [main] *)

Module Script.

(** What [requests.get] returns, as far as the script reads it:
    [resp.status_code], [resp.text] and [resp.content] (the bytes of the
    body). *)
Record Response : Type := MkResponse {
  status_code : N;
  resp_text : pystr;
  resp_content : pystr
}.

(** What a run can end with besides a Python exception of the script's
    own code: the [HTTPError] of [raise_for_status]. *)
Inductive failure : Type :=
  | PythonError (e : exn)
  | HTTPError (status : N).

(** The working directory: its files and the directories made in it. *)
Record world : Type := World {
  world_files : filesystem;
  world_dirs : gset pystr
}.

Inductive run : Type :=
  | Finished (w : world)
  | Aborted (f : failure) (w : world).

Definition world_of (r : run) : world :=
  match r with
  | Finished w => w
  | Aborted _ w => w
  end.

Definition MODULE_PAGE_TEMPLATE : pystr :=
  ustr "https://modarchive.org/index.php?request=view_by_moduleid&query={mod_id}".

Definition DOWNLOAD_URL_TEMPLATE : pystr :=
  ustr "https://api.modarchive.org/downloads.php?moduleid={mod_id}".

(** [template.format(mod_id=value)] for a template whose only braces are
    those of the field [{mod_id}]: [skip] counts the characters of a field
    still to pass over. *)
Fixpoint format_field (skip : nat) (value template : pystr) : pystr :=
  match template with
  | [] => []
  | c :: template' =>
      match skip with
      | S skip' => format_field skip' value template'
      | O =>
          if starts_with (ustr "{mod_id}") template
          then value ++ format_field 7 value template'
          else c :: format_field 0 value template'
      end
  end.

Definition format_mod_id (template : pystr) (mod_id : Z) : pystr :=
  format_field 0 (decimal mod_id) template.

(** [resp.raise_for_status()] *)
Definition raise_for_status (resp : Response) : bool :=
  (400 <=? status_code resp) && (status_code resp <? 600).

(** [os.path.join(a, b)] of [posixpath]. *)
Definition path_join (a b : pystr) : pystr :=
  if starts_with (ustr "/") b then b
  else if is_empty a || starts_with (ustr "/") (rev a) then a ++ b
  else a ++ ustr "/" ++ b.

Definition SLASH : N := 47.
Definition DOT : N := 46.

Definition ascii_lower (c : N) : N :=
  if in_range 65 90 c then c + 32 else c.

Section Environment.

(** The parts of the interpreter and of the outside world a run depends
    on: [str.isalnum] beyond Latin-1, [str.lower] on a string that is not
    plain ASCII, the HTML parser and the answers of the server. *)
Variable alnum_beyond_latin1 : N -> bool.
Variable lower_beyond_ascii : pystr -> pystr.
Variable html_parser : pystr -> list node.
Variable requests_get : pystr -> Response.

(** [s.lower()] *)
Definition lower (s : pystr) : pystr :=
  if forallb (fun c => c <? 128) s then List.map ascii_lower s
  else lower_beyond_ascii s.

(** [def fetch_html(mod_id)] *)
Definition fetch_html (mod_id : Z) : failure + list node :=
  let url := format_mod_id MODULE_PAGE_TEMPLATE mod_id in
  let resp := requests_get url in
  if raise_for_status resp then inl (HTTPError (status_code resp))
  else inr (html_parser (resp_text resp)).

(** [def download_module(mod_id, dest_path)] *)
Definition download_module (mod_id : Z) (dest_path : pystr)
  (fs : filesystem) : failure + filesystem :=
  let url := format_mod_id DOWNLOAD_URL_TEMPLATE mod_id in
  let resp := requests_get url in
  if raise_for_status resp then inl (HTTPError (status_code resp))
  else inr (<[dest_path := resp_content resp]> fs).

(** [artist = meta["artist"] if args.artist is None else args.artist] *)
Definition resolve_artist (args : Args) (meta : metadata) : pystr :=
  match args_artist args with
  | None => artist meta
  | Some a => a
  end.

(** [genre = meta["genre"] or "Unknown" if args.genre is None else
    args.genre]: the conditional binds weaker than [or]. *)
Definition resolve_genre (args : Args) (meta : metadata) : pystr :=
  match args_genre args with
  | None => if is_empty (genre meta) then ustr "Unknown" else genre meta
  | Some g => g
  end.

(** [fmt = meta["format"].lower() or "mod"]; [ext = fmt] *)
Definition resolve_ext (meta : metadata) : pystr :=
  if is_empty (lower (format meta)) then ustr "mod" else lower (format meta).

(** [dest_dir = os.path.join(".", genre_dir)] *)
Definition dest_dir_of (genre : pystr) : pystr :=
  path_join (ustr ".") (sanitize_filename alnum_beyond_latin1 genre).

(** [filename = f"{base}-{artist_s}.{ext}"] *)
Definition filename_of (title artist ext : pystr) : pystr :=
  sanitize_filename alnum_beyond_latin1 title ++ ustr "-"
  ++ sanitize_filename alnum_beyond_latin1 artist ++ ustr "." ++ ext.

(** [dest_path = os.path.join(dest_dir, filename)] *)
Definition dest_path_of (title artist genre ext : pystr) : pystr :=
  path_join (dest_dir_of genre) (filename_of title artist ext).

(** The dictionary that [main] passes to [update_metadata_csv]. *)
Definition catalog_record (meta : metadata)
  (title artist genre dest_path : pystr) : ModuleRecord :=
  MkRecord (mod_id meta) title (md5 meta) (format meta) (channels meta)
           genre artist dest_path.

(** [def main(args)], without its two [print]s.  [os.makedirs(dest_dir,
    exist_ok=True)] records the directory. *)
Definition main (args : Args) (w : world) : run :=
  match fetch_html (args_mod_id args) with
  | inl f => Aborted f w
  | inr soup =>
      match scrape_metadata soup with
      | Raise e => Aborted (PythonError e) w
      | Ok meta =>
          match resolve_title args soup with
          | Raise e => Aborted (PythonError e) w
          | Ok title =>
              let artist := resolve_artist args meta in
              let genre := resolve_genre args meta in
              let ext := resolve_ext meta in
              let dest_dir := dest_dir_of genre in
              let w := World (world_files w) ({[dest_dir]} ∪ world_dirs w) in
              let dest_path := dest_path_of title artist genre ext in
              match download_module (args_mod_id args) dest_path
                                    (world_files w) with
              | inl f => Aborted f w
              | inr fs =>
                  match update_metadata_csv CSV_FILENAME
                          (catalog_record meta title artist genre dest_path)
                          fs with
                  | Returned fs' => Finished (World fs' (world_dirs w))
                  | Raised e fs' =>
                      Aborted (PythonError e) (World fs' (world_dirs w))
                  end
              end
          end
      end
  end.

End Environment.

(** *** Notions the further facts are stated with *)

(** A string without leading and trailing whitespace. *)
Definition trimmed (s : pystr) : Prop :=
  leading_space s = false /\ trailing_space s = false.

(** The five fields of the info section hold such strings. *)
Definition info_trimmed (data : metadata) : Prop :=
  trimmed (mod_id data) /\ trimmed (md5 data) /\ trimmed (format data)
  /\ trimmed (channels data) /\ trimmed (genre data).

(** A row of fewer than eight fields, filled up with empty fields as
    [DictWriter] writes it. *)
Definition pad_row (row : list pystr) : list pystr :=
  row ++ replicate (length fieldnames - length row) [].

(** The rows of a file that the first loop keeps: those whose first
    field is not the key. *)
Definition other_rows (key : pystr) (rows : list (list pystr))
  : list (list pystr) :=
  List.filter (fun row => negb (bool_decide (head row = Some key))) rows.

(** The text of a file with the header of the catalogue and any rows. *)
Definition table_text (rows : list (list pystr)) : pystr :=
  List.concat (List.map (writerow SEMICOLON) (fieldnames :: rows)).

(** A row that has no more fields than the header of the catalogue. *)
Definition fits (row : list pystr) : bool :=
  (length row <=? length fieldnames)%nat.

(** A row that [csv.reader] returns for a line of fields: it has a field. *)
Definition is_row (row : list pystr) : bool := negb (bool_decide (row = [])).

(** *** A sample run *)

(** A page with a title, an info section and an artist. *)
Definition sample_page : list node :=
  [ Elem (ustr "h1") [Text (ustr " Space Debris ")];
    h3 [Text (ustr "Info")]; sample_info;
    h2 [Text (ustr "Registered Artist(s):")]; ul [li "Captain"] ].

Definition sample_server (url : pystr) : Response :=
  if pystr_eqb url (format_mod_id MODULE_PAGE_TEMPLATE 1234)
  then MkResponse 200 (ustr "<html>") []
  else if pystr_eqb url (format_mod_id DOWNLOAD_URL_TEMPLATE 1234)
  then MkResponse 200 [] [73; 77; 80; 77; 0; 255]
  else MkResponse 404 [] [].

Definition sample_parser (html : pystr) : list node := sample_page.

Definition sample_args : Args := MkArgs 1234 None None None.

(** What the scraper returns for the sample page. *)
Definition sample_run_metadata : metadata :=
  set_artist (ustr "Captain") sample_metadata.

(** An interpreter for runs on ASCII text: no alphanumeric character
    beyond Latin-1 and no change of case beyond ASCII are needed. *)
Definition no_wide_alnum (c : N) : bool := false.
Definition same_case (s : pystr) : pystr := s.

(** A page without info section, and a catalogue that holds the row of
    another module filed without id. *)
Definition bare_page : list node :=
  [Elem (ustr "h1") [Text (ustr "Bare")]].

Definition bare_parser (html : pystr) : list node := bare_page.

Definition other_unknown : ModuleRecord :=
  MkRecord Unknown (ustr "Other song") Unknown Unknown Unknown Unknown
           Unknown (ustr "./Unknown/Other song-Unknown.mod").

Definition world_with_unknown : world :=
  World (<[CSV_FILENAME := catalog_text [other_unknown]]> empty_directory) ∅.

(** A server that refuses every request, and one that serves the page
    but not the module. *)
Definition failing_server (url : pystr) : Response := MkResponse 503 [] [].

Definition page_only_server (url : pystr) : Response :=
  if pystr_eqb url (format_mod_id MODULE_PAGE_TEMPLATE 1234)
  then MkResponse 200 (ustr "<html>") []
  else MkResponse 404 [] [].

Definition empty_world : world := World empty_directory ∅.

(** Rows of a file that a call did not write: two short rows; and a row
    of nine fields between two rows of one field. *)
Definition short_rows : list (list pystr) :=
  [[ustr "5"; ustr "old"]; [ustr "7"; ustr "short"]].

(** A catalogue that another program wrote with commas. *)
Definition comma_catalog : pystr :=
  writerow COMMA fieldnames
  ++ writerow COMMA (record_fields (record_five "first")).

Definition long_row : list pystr :=
  List.map ustr ["2"; "b"; "c"; "d"; "e"; "f"; "g"; "h"; "i"]%string.

Definition rows_with_long : list (list pystr) :=
  [[ustr "1"]; long_row; [ustr "3"]].

End Script.
Export Script.

(** * Facts about the text operations *)

Section TextFacts.

Implicit Types (s t : pystr) (c : N).

Lemma lstrip_split s :
  exists pre, s = pre ++ lstrip s /\ forallb isspace pre = true.
Proof.
  induction s as [|c s IH]; simpl.
  - exists []. split; reflexivity.
  - destruct (isspace c) eqn:E.
    + destruct IH as [pre [Hs Hp]]. exists (c :: pre). split.
      * simpl. congruence.
      * simpl. rewrite E. exact Hp.
    + exists []. split; reflexivity.
Qed.

Lemma lstrip_leading s : leading_space (lstrip s) = false.
Proof.
  induction s as [|c s IH]; simpl; [reflexivity|].
  destruct (isspace c) eqn:E; [exact IH|]. simpl. exact E.
Qed.

Lemma lstrip_fixed s : leading_space s = false -> lstrip s = s.
Proof. destruct s as [|c s]; simpl; [reflexivity|]. intros ->. reflexivity. Qed.

Lemma rstrip_split s :
  exists post, s = rstrip s ++ post /\ forallb isspace post = true.
Proof.
  destruct (lstrip_split (rev s)) as [pre [Hs Hp]].
  exists (rev pre). split.
  - unfold rstrip. rewrite <- rev_app_distr, <- Hs. symmetry. apply rev_involutive.
  - rewrite forallb_forall in *. intros x Hx. apply Hp. now apply in_rev.
Qed.

Lemma rstrip_trailing s : trailing_space (rstrip s) = false.
Proof.
  unfold trailing_space, rstrip. rewrite rev_involutive. apply lstrip_leading.
Qed.

Lemma rstrip_leading s : leading_space s = false -> leading_space (rstrip s) = false.
Proof.
  intros H. destruct (rstrip_split s) as [post [Hs _]].
  destruct (rstrip s) as [|c r] eqn:E; [reflexivity|].
  rewrite Hs in H. exact H.
Qed.

Lemma rstrip_fixed s : trailing_space s = false -> rstrip s = s.
Proof.
  unfold trailing_space, rstrip. intros H.
  rewrite (lstrip_fixed _ H). apply rev_involutive.
Qed.

Lemma strip_leading s : leading_space (strip s) = false.
Proof. apply rstrip_leading, lstrip_leading. Qed.

Lemma strip_trailing s : trailing_space (strip s) = false.
Proof. apply rstrip_trailing. Qed.

Lemma strip_fixed s :
  leading_space s = false -> trailing_space s = false -> strip s = s.
Proof.
  intros H1 H2. unfold strip. rewrite (lstrip_fixed _ H1). now apply rstrip_fixed.
Qed.

Lemma strip_strip s : strip (strip s) = strip s.
Proof. apply strip_fixed; [apply strip_leading | apply strip_trailing]. Qed.

(** A stripped string is a segment of the string it comes from. *)
Lemma strip_split s : exists pre post, s = pre ++ strip s ++ post.
Proof.
  destruct (lstrip_split s) as [pre [Hs _]].
  destruct (rstrip_split (lstrip s)) as [post [Ht _]].
  exists pre, post. unfold strip. rewrite <- Ht. exact Hs.
Qed.

Lemma strip_forallb (f : N -> bool) s :
  forallb f s = true -> forallb f (strip s) = true.
Proof.
  destruct (strip_split s) as [pre [post Hs]]. intros H.
  rewrite Hs, !forallb_app in H.
  apply andb_prop in H as [_ H]. now apply andb_prop in H as [H _].
Qed.

Lemma filter_forallb (f : N -> bool) s : forallb f (List.filter f s) = true.
Proof.
  induction s as [|c s IH]; simpl; [reflexivity|].
  destruct (f c) eqn:E; simpl; [rewrite E|]; exact IH.
Qed.

Lemma filter_fixed (f : N -> bool) s :
  forallb f s = true -> List.filter f s = s.
Proof.
  induction s as [|c s IH]; simpl; [reflexivity|].
  intros H. apply andb_prop in H as [-> H]. now rewrite IH.
Qed.

End TextFacts.

(** * The sanitiser *)

Section SanitizeFacts.

Variable alnum_beyond_latin1 : N -> bool.

Local Abbreviation sanitize := (sanitize_filename alnum_beyond_latin1).
Local Abbreviation keep := (keep_char alnum_beyond_latin1).

Lemma keep_char_ascii c :
  keep c = true -> (c <? 128) = true -> ascii_allowed c = true.
Proof.
  unfold keep_char, isalnum, ascii_allowed, char_in. intros H E.
  rewrite E in H.
  change (ustr " _-") with [SPACE; UNDERSCORE; HYPHEN] in H. simpl in H.
  rewrite orb_false_r in H. rewrite <- !orb_assoc. exact H.
Qed.

Lemma sanitize_kept s : forallb keep (sanitize s) = true.
Proof. apply strip_forallb, filter_forallb. Qed.

(** C2, as the code has it: the result holds only characters that are
    alphanumeric in the sense of [str.isalnum] or one of space, underscore
    and hyphen; those of its characters that are ASCII lie in
    [[A-Za-z0-9 _-]]; and it neither starts nor ends with whitespace. *)
Theorem sanitize_filename_charset (s : pystr) :
  forallb keep (sanitize_filename alnum_beyond_latin1 s) = true
  /\ forallb (fun c => implb (c <? 128) (ascii_allowed c))
             (sanitize_filename alnum_beyond_latin1 s) = true
  /\ leading_space (sanitize_filename alnum_beyond_latin1 s) = false
  /\ trailing_space (sanitize_filename alnum_beyond_latin1 s) = false.
Proof.
  split; [apply sanitize_kept|]. split.
  - pose proof (sanitize_kept s) as H. rewrite forallb_forall in *.
    intros c Hc. specialize (H c Hc).
    destruct (c <? 128) eqn:E; [|reflexivity]. simpl.
    now apply keep_char_ascii.
  - split; [apply strip_leading | apply strip_trailing].
Qed.

(** C10: sanitising twice is sanitising once. *)
Theorem sanitize_filename_idempotent (s : pystr) :
  sanitize_filename alnum_beyond_latin1 (sanitize_filename alnum_beyond_latin1 s)
  = sanitize_filename alnum_beyond_latin1 s.
Proof.
  unfold sanitize_filename at 1.
  rewrite (filter_fixed _ _ (sanitize_kept s)).
  apply strip_strip.
Qed.

End SanitizeFacts.

(** C2 as stated fails: the letter U+00E9 is alphanumeric for
    [str.isalnum], so it is kept, and it is not in [[A-Za-z0-9 _-]].  The
    code point lies in Latin-1, where the table of the development is
    explicit: the parameter is not consulted. *)
Lemma sanitize_keeps_e_acute :
  sanitize_filename (fun _ => false) [233] = [233]
  /\ ascii_allowed 233 = false.
Proof. split; reflexivity. Qed.

(** * The scraper *)

Section ScraperFacts.

Implicit Types (line : pystr) (data : metadata) (soup : list node).

Lemma starts_with_In (needle hay : pystr) c :
  starts_with needle hay = true -> In c needle -> In c hay.
Proof.
  revert hay. induction needle as [|a needle IH]; intros [|b hay]; simpl;
    try easy.
  intros H [<-|Hc]; apply andb_prop in H as [Hab H].
  - left. symmetry. now apply N.eqb_eq.
  - right. now apply IH.
Qed.

Lemma contains_In (needle hay : pystr) c :
  contains needle hay = true -> In c needle -> In c hay.
Proof.
  induction hay as [|b hay IH]; simpl; intros H Hc.
  - destruct needle; [easy | discriminate H].
  - apply orb_prop in H as [H|H].
    + eapply (starts_with_In needle (b :: hay)); eassumption.
    + right. now apply IH.
Qed.

Lemma split_colon_once_In line :
  In COLON line -> exists a b, split_colon_once line = [a; b].
Proof.
  induction line as [|c line IH]; simpl; [easy|].
  intros H. destruct (c =? COLON) eqn:E; [now eauto|].
  destruct H as [->|H]; [now rewrite N.eqb_refl in E|].
  destruct (IH H) as [a [b ->]]. eauto.
Qed.

(** The index [1] of the split exists wherever the script uses it. *)
Lemma value_of_In line : In COLON line -> exists v, value_of line = Ok v.
Proof.
  intros H. destruct (split_colon_once_In _ H) as [a [b E]].
  unfold value_of. rewrite E. simpl. eauto.
Qed.

Lemma scan_line_returns data line :
  exists data', scan_line data line = Ok data' /\ artist data' = artist data.
Proof.
  unfold scan_line.
  repeat match goal with
  | |- context [if contains ?l line then _ else _] =>
      let E := fresh "E" in
      destruct (contains l line) eqn:E;
      [ destruct (value_of_In line) as [v ->];
        [ apply (contains_In _ _ _ E); vm_compute; tauto
        | simpl; eexists; split; reflexivity ] | ]
  end.
  eauto.
Qed.

Lemma scan_lines_returns data (lines : list pystr) :
  exists data', scan_lines data lines = Ok data' /\ artist data' = artist data.
Proof.
  revert data. induction lines as [|line lines IH]; intros data; simpl.
  - eauto.
  - destruct (scan_line_returns data line) as [d1 [-> H1]]. simpl.
    destruct (IH d1) as [d2 [-> H2]]. exists d2. split; congruence.
Qed.

(** The second loop raises exactly when some level-2 heading has no
    string child. *)
Lemma artist_loop_raises data (headers : list located) :
  existsb lacks_direct_text headers = true ->
  artist_loop data headers = Raise AttributeError.
Proof.
  revert data. induction headers as [|h headers IH]; intros data; simpl;
    [easy|].
  unfold lacks_direct_text at 1.
  destruct (direct_text (children_of h)) as [t|]; simpl; [|reflexivity].
  intros H. destruct (pystr_eqb (strip t) artist_label);
    [destruct (find_next_sibling (ustr "ul") h)|]; now apply IH.
Qed.

Lemma artist_loop_returns data (headers : list located) :
  existsb lacks_direct_text headers = false ->
  artist_loop data headers
  = Ok match last (artist_lists headers) with
       | Some ul => set_artist (artists_of ul) data
       | None => data
       end.
Proof.
  revert data. induction headers as [|h headers IH]; intros data; simpl;
    [reflexivity|].
  unfold lacks_direct_text at 1, artist_lists, is_artist_header at 1.
  destruct (direct_text (children_of h)) as [t|]; simpl; [|easy].
  intros H. fold (artist_lists headers).
  destruct (pystr_eqb (strip t) artist_label);
    [destruct (find_next_sibling (ustr "ul") h) as [ul|]|]; simpl;
    rewrite (IH _ H); try reflexivity.
  rewrite last_cons. now destruct (last (artist_lists headers)).
Qed.

End ScraperFacts.

Section ScraperClaims.

Implicit Types (soup : list node).

Lemma h2_headers_of_find_tag soup :
  find_tag (ustr "h2") soup = None -> h2_headers soup = [].
Proof.
  unfold find_tag, h2_headers. now destruct (find_all [ustr "h2"] soup).
Qed.

Lemma artist_lists_none (headers : list located) :
  existsb is_artist_header headers = false -> artist_lists headers = [].
Proof.
  induction headers as [|h headers IH]; simpl; [reflexivity|].
  intros H. apply orb_false_elim in H as [Hh H].
  unfold artist_lists in *. simpl. rewrite Hh. now apply IH.
Qed.

(** The scraper as a whole: it returns unless a level-2 heading lacks a
    string child, and then the artist is the one of the last list. *)
Lemma scrape_metadata_returns soup :
  existsb lacks_direct_text (h2_headers soup) = false ->
  exists data,
    scrape_metadata soup = Ok data /\ artist data = artist_by_last_list soup.
Proof.
  intros H. unfold scrape_metadata, artist_by_last_list.
  fold (h2_headers soup).
  assert (exists d, match find_info_section soup with
                    | Some section => scan_lines all_unknown (info_lines section)
                    | None => Ok all_unknown
                    end = Ok d /\ artist d = Unknown) as [d [-> Hd]].
  { destruct (find_info_section soup); [apply scan_lines_returns|eauto]. }
  simpl. rewrite (artist_loop_returns _ _ H).
  destruct (last (artist_lists (h2_headers soup))); eauto.
Qed.

Lemma scrape_metadata_raises soup :
  existsb lacks_direct_text (h2_headers soup) = true ->
  scrape_metadata soup = Raise AttributeError.
Proof.
  intros H. unfold scrape_metadata. fold (h2_headers soup).
  destruct (match find_info_section soup with
            | Some section => scan_lines all_unknown (info_lines section)
            | None => Ok all_unknown
            end) as [d|e] eqn:E.
  - simpl. now apply artist_loop_raises.
  - destruct (find_info_section soup) as [section|]; [|discriminate E].
    destruct (scan_lines_returns all_unknown (info_lines section)) as [d [E' _]].
    congruence.
Qed.

(** X4: the page without matching headings, when every level-2 heading
    has a string child: the scraper returns and all six fields keep their
    default. *)
Theorem scrape_metadata_degrades soup :
  no_info_heading soup = true ->
  no_artist_heading soup = true ->
  existsb lacks_direct_text (h2_headers soup) = false ->
  scrape_metadata soup = Ok all_unknown.
Proof.
  unfold no_info_heading, no_artist_heading. intros Hi Ha Ht.
  apply negb_true_iff in Hi, Ha.
  unfold scrape_metadata, find_info_section. fold (h2_headers soup).
  destruct (List.find is_info_header (info_headers soup)) as [h|] eqn:E.
  - apply find_some in E as [Hin Hh].
    assert (existsb is_info_header (info_headers soup) = true)
      by (apply existsb_exists; eauto).
    congruence.
  - simpl. rewrite (artist_loop_returns _ _ Ht), (artist_lists_none _ Ha).
    reflexivity.
Qed.

(** X3: the specification's example.  On a page whose info section has
    the five lines of the example, without artist heading and with a
    string child in every level-2 heading, the scraper returns the five
    values and the default artist. *)
Theorem scrape_metadata_extracts soup (section : node) :
  find_info_section soup = Some section ->
  info_lines section = sample_lines ->
  no_artist_heading soup = true ->
  existsb lacks_direct_text (h2_headers soup) = false ->
  scrape_metadata soup = Ok sample_metadata.
Proof.
  unfold no_artist_heading. intros Hs Hl Ha Ht. apply negb_true_iff in Ha.
  unfold scrape_metadata. fold (h2_headers soup). rewrite Hs, Hl.
  change (scan_lines all_unknown sample_lines) with (Ok sample_metadata).
  simpl. rewrite (artist_loop_returns _ _ Ht), (artist_lists_none _ Ha).
  reflexivity.
Qed.

Lemma scrape_metadata_degrades_witness :
  scrape_metadata page_plain = Ok all_unknown.
Proof. apply scrape_metadata_degrades; reflexivity. Defined.

Lemma scrape_metadata_extracts_witness :
  scrape_metadata page_info = Ok sample_metadata.
Proof. apply (scrape_metadata_extracts page_info sample_info); reflexivity. Defined.

(** C4, the failing input: the page [<h2><b>Title</b></h2>] has no info
    heading and no artist heading, and the scraper raises on it instead
    of returning the defaults. *)
Theorem scrape_metadata_nested_heading :
  no_info_heading page_nested_h2 = true
  /\ no_artist_heading page_nested_h2 = true
  /\ scrape_metadata page_nested_h2 = Raise AttributeError.
Proof. repeat split; vm_compute; reflexivity. Qed.

(** C5 as stated fails: of two artist headings with a list each, the
    second decides, not the first. *)
Lemma artist_of_second_heading :
  scrape_metadata page_two_artists = Ok (set_artist (ustr "Bob") all_unknown)
  /\ artist_by_first_match page_two_artists = ustr "Alice".
Proof. split; vm_compute; reflexivity. Qed.

(** C5, as the code has it: on a page whose level-2 headings all have a
    string child, the artist field comes from the last artist heading
    that is followed by a sibling list, as the stripped texts of its items
    joined with a comma and a space; without such a heading it stays
    at its default. *)
Theorem artist_from_last_list soup :
  existsb lacks_direct_text (h2_headers soup) = false ->
  exists data,
    scrape_metadata soup = Ok data
    /\ artist data = artist_by_last_list soup
    /\ artist_by_last_list soup
       = match last (artist_lists (h2_headers soup)) with
         | Some ul =>
             join (ustr ", ")
                  (List.map (fun li => strip (text (node_children li)))
                            (findAll (ustr "li") ul))
         | None => ustr "Unknown"
         end.
Proof.
  intros H. destruct (scrape_metadata_returns soup H) as [d [E Ha]].
  exists d. repeat split; assumption || reflexivity.
Qed.

Lemma artist_from_last_list_witness :
  exists data,
    scrape_metadata page_two_artists = Ok data
    /\ artist data = artist_by_last_list page_two_artists
    /\ artist_by_last_list page_two_artists
       = match last (artist_lists (h2_headers page_two_artists)) with
         | Some ul =>
             join (ustr ", ")
                  (List.map (fun li => strip (text (node_children li)))
                            (findAll (ustr "li") ul))
         | None => ustr "Unknown"
         end.
Proof. apply (artist_from_last_list page_two_artists). reflexivity. Defined.

(** C8, the failing input: the example's info section under the heading
    [<h2><b>Info</b></h2>].  The section is found, its lines are the
    five of the example and no heading is an artist heading, yet the
    scraper raises in its second loop instead of returning the fields. *)
Theorem scrape_metadata_nested_info_heading :
  option_map info_lines (find_info_section page_info_nested) = Some sample_lines
  /\ no_artist_heading page_info_nested = true
  /\ scrape_metadata page_info_nested = Raise AttributeError.
Proof. repeat split; vm_compute; reflexivity. Qed.

End ScraperClaims.

(** * Title resolution *)

(** C3, the failing runs: without a name override and without a level-1
    or level-2 heading, the fallback title is never built; reading the
    unbound name [mod_id] raises. *)
Theorem title_fallback_raises (args : Args) (soup : list node) :
  args_name args = None ->
  find_tag (ustr "h1") soup = None ->
  find_tag (ustr "h2") soup = None ->
  main_title args soup = Raise NameError.
Proof.
  intros Hn H1 H2. unfold main_title.
  destruct (scrape_metadata_returns soup) as [d [-> _]].
  { now rewrite (h2_headers_of_find_tag _ H2). }
  simpl. unfold resolve_title, title_header. rewrite Hn, H1, H2.
  reflexivity.
Qed.

Lemma title_fallback_raises_witness :
  main_title (MkArgs 42 None None None) page_plain = Raise NameError.
Proof. apply title_fallback_raises; reflexivity. Defined.

(** * The reader and the writer of [csv] *)

Local Arguments eol_after : simpl never.

Section ReaderFacts.

Implicit Types (s f : pystr) (c : N) (p : parser) (evs : list event).

Lemma readlines_cons c s : readlines (c :: s) <> [].
Proof.
  simpl. destruct (c =? LF); [easy|]. destruct (c =? CR).
  - destruct s as [|c' s]; [easy|]. now destruct (c' =? LF).
  - now destruct (readlines s).
Qed.

Lemma events_of_cons c s next :
  events_of (c :: s) next
  = Chr c :: (if eol_after c (from_option Some next (head s))
              then [EOL] else []) ++ events_of s next.
Proof. now destruct s. Qed.

Lemma events_of_app s t next :
  events_of (s ++ t) next
  = events_of s (from_option Some next (head t)) ++ events_of t next.
Proof.
  induction s as [|c s IH]; [reflexivity|].
  rewrite <- app_comm_cons, !events_of_cons, IH.
  replace (from_option Some next (head (s ++ t)))
    with (from_option Some (from_option Some next (head t)) (head s))
    by now destruct s.
  simpl. now rewrite <- app_assoc.
Qed.

(** The events of a file are those of its lines. *)
Lemma eol_after_LF next : eol_after LF next = true.
Proof. now destruct next. Qed.

Lemma flat_map_line_events (l : pystr) (ls : list pystr) :
  List.flat_map line_events (l :: ls)
  = List.map Chr l ++ EOL :: List.flat_map line_events ls.
Proof. simpl. unfold line_events. now rewrite <- app_assoc. Qed.

Lemma events_of_readlines s :
  List.flat_map line_events (readlines s) = events_of s None.
Proof.
  remember (length s) as n eqn:Hn. revert s Hn.
  induction n as [n IH] using lt_wf_ind. intros [|c s] Hn; [reflexivity|].
  simpl in Hn. rewrite events_of_cons. simpl readlines.
  destruct (c =? LF) eqn:Elf.
  - apply N.eqb_eq in Elf as ->.
    rewrite flat_map_line_events, eol_after_LF.
    now rewrite (IH (length s)) by (lia || reflexivity).
  - destruct (c =? CR) eqn:Ecr.
    + apply N.eqb_eq in Ecr as ->.
      destruct s as [|c' s]; [reflexivity|].
      simpl head. simpl from_option. unfold eol_after at 1.
      destruct (c' =? LF) eqn:E'; rewrite flat_map_line_events.
      * apply N.eqb_eq in E' as ->.
        rewrite (IH (length s)) by (simpl in Hn; lia || reflexivity).
        rewrite events_of_cons, eol_after_LF. reflexivity.
      * now rewrite (IH (length (c' :: s))) by (lia || reflexivity).
    + destruct s as [|c' s]; [reflexivity|].
      pose proof (readlines_cons c' s) as Hne.
      pose proof (IH (length (c' :: s)) ltac:(lia) (c' :: s) eq_refl) as IH'.
      destruct (readlines (c' :: s)) as [|l ls]; [easy|].
      simpl head. simpl from_option. unfold eol_after at 1.
      rewrite Elf, Ecr, <- IH', !flat_map_line_events. reflexivity.
Qed.

Lemma events_of_plain f c :
  forallb (fun x => negb (is_newline x)) f = true ->
  events_of f (Some c) = List.map Chr f.
Proof.
  induction f as [|x f IH]; [reflexivity|]. intros H.
  apply andb_prop in H as [Hx H].
  rewrite events_of_cons, (IH H).
  apply negb_true_iff, orb_false_elim in Hx as [Hlf Hcr].
  assert (forall next, eol_after x (Some next) = false) as E
    by (intros; unfold eol_after; now rewrite Hlf, Hcr).
  destruct (head f); simpl from_option; now rewrite E.
Qed.

Lemma advance_app d p evs evs' :
  advance d p (evs ++ evs') = advance d p evs ≫= fun p' => advance d p' evs'.
Proof.
  revert p. induction evs as [|ev evs IH]; intros p; [reflexivity|].
  simpl. destruct (process_char d p ev) as [p'|]; [|reflexivity].
  destruct (is_eol ev && is_start_record (state p')); [reflexivity|apply IH].
Qed.

Lemma records_advance d p evs p' evs' :
  advance d p evs = Some p' ->
  records d p (evs ++ evs') = records d p' evs'.
Proof.
  revert p. induction evs as [|ev evs IH]; intros p; simpl.
  - now intros [= ->].
  - destruct (process_char d p ev) as [p1|]; [|easy]. simpl.
    destruct ev as [c|]; simpl.
    + apply IH.
    + destruct (is_start_record (state p1)); [easy|apply IH].
Qed.

End ReaderFacts.

(** ** The reader never fails on the lines of a file

    The only error of the machine, a character after a line ending
    outside quotes, needs a line that goes on after its ending. *)

Section ReaderTotal.

Variable d : N.

Implicit Types (s : pystr) (c : N) (p : parser).

Lemma process_char_returns p ev :
  state p <> EAT_CRNL -> exists p', process_char d p ev = Ok p'.
Proof.
  intros H. unfold process_char, start_field.
  destruct (state p); try easy; destruct ev as [c|]; eauto;
    repeat match goal with
    | |- context [if ?b then _ else _] => destruct b
    end; eauto.
Qed.

Lemma process_char_EOL p :
  exists p', process_char d p EOL = Ok p' /\ state p' <> EAT_CRNL.
Proof.
  unfold process_char, start_field.
  destruct (state p) eqn:E; eexists; (split; [reflexivity|]); simpl;
    congruence.
Qed.

Lemma process_char_plain p c :
  state p <> EAT_CRNL -> is_newline c = false ->
  exists p', process_char d p (Chr c) = Ok p' /\ state p' <> EAT_CRNL.
Proof.
  intros H Hc. unfold process_char, start_field. rewrite Hc.
  destruct (state p) eqn:E; try easy;
    repeat match goal with
    | |- context [if ?b then _ else _] => destruct b
    end; eexists; (split; [reflexivity|]); simpl; congruence.
Qed.

Lemma process_char_LF p : exists p', process_char d p (Chr LF) = Ok p'.
Proof.
  destruct (state p) eqn:E;
    try (apply process_char_returns; congruence).
  unfold process_char. rewrite E. simpl. eauto.
Qed.

Lemma records_after_EOL p (evs : list event) :
  (forall p', state p' <> EAT_CRNL -> exists rs, records d p' evs = Ok rs) ->
  exists rs, records d p (EOL :: evs) = Ok rs.
Proof.
  intros H. destruct (process_char_EOL p) as (p' & E & Hp').
  simpl. rewrite E. simpl.
  destruct (is_start_record (state p')); [|now apply H].
  destruct (H fresh) as [rs ->]; [easy|]. simpl. eauto.
Qed.

Lemma records_returns s p :
  state p <> EAT_CRNL -> exists rs, records d p (events_of s None) = Ok rs.
Proof.
  remember (length s) as n eqn:Hn. revert s p Hn.
  induction n as [n IH] using lt_wf_ind. intros [|c s] p Hn Hp.
  - simpl. eauto.
  - simpl in Hn. rewrite events_of_cons.
    destruct (eol_after c (from_option Some None (head s))) eqn:Eeol.
    + destruct (process_char_returns p (Chr c) Hp) as [p1 E1].
      cbn [records app]. rewrite E1. cbn [bind].
      apply records_after_EOL. intros p' Hp'.
      apply (IH (length s)); (lia || easy).
    + destruct s as [|c' s]; [discriminate Eeol|].
      simpl in Eeol. unfold eol_after in Eeol.
      apply orb_false_elim in Eeol as [Elf Ecr].
      destruct (c =? CR) eqn:Ec.
      * simpl in Ecr. apply negb_false_iff, N.eqb_eq in Ecr as ->.
        destruct (process_char_returns p (Chr c) Hp) as [p1 E1].
        destruct (process_char_LF p1) as [p2 E2].
        rewrite events_of_cons, eol_after_LF.
        cbn [records app]. rewrite E1. cbn [bind]. rewrite E2. cbn [bind].
        apply records_after_EOL. intros p' Hp'.
        apply (IH (length s)); (simpl in Hn; lia) || easy.
      * destruct (process_char_plain p c Hp) as (p1 & E1 & Hp1).
        { unfold is_newline. now rewrite Elf, Ec. }
        cbn [records app]. rewrite E1. cbn [bind].
        apply (IH (length (c' :: s))); (lia || easy).
Qed.

Lemma reader_returns (content : pystr) :
  exists rows, reader d content = Ok rows.
Proof.
  unfold reader. rewrite events_of_readlines. now apply records_returns.
Qed.

End ReaderTotal.


(** ** Reading back what the writer wrote *)

Section RoundTrip.

Variable d : N.
Hypothesis d_ordinary : ordinary d = true.

Implicit Types (f b : pystr) (acc row : list pystr) (c x y : N).

Lemma ordinary_inv : (d =? DQUOTE) = false /\ (d =? CR) = false /\ (d =? LF) = false.
Proof using d_ordinary.
  unfold ordinary, is_newline in d_ordinary.
  apply negb_true_iff, orb_false_elim in d_ordinary as [H1 H2].
  apply orb_false_elim in H2 as [H2 H3]. auto.
Qed.

Lemma is_special_inv c :
  is_special d c = false ->
  (c =? d) = false /\ (c =? DQUOTE) = false /\ is_newline c = false.
Proof.
  unfold is_special, is_newline. intros H.
  apply orb_false_elim in H as [H H4]. apply orb_false_elim in H as [H H3].
  apply orb_false_elim in H as [H1 H2]. rewrite H4, H3. auto.
Qed.

Lemma needs_quotes_plain f :
  needs_quotes d f = false ->
  forallb (fun x => negb (is_newline x)) f = true.
Proof.
  induction f as [|c f IH]; [reflexivity|]. simpl. intros H.
  apply orb_false_elim in H as [Hc H].
  apply is_special_inv in Hc as (_ & _ & ->). simpl. now apply IH.
Qed.

(** An unquoted field is read character by character. *)
Lemma advance_in_field acc b f :
  needs_quotes d f = false ->
  advance d (Parser IN_FIELD acc b) (List.map Chr f)
  = Some (Parser IN_FIELD acc (b ++ f)).
Proof.
  revert b. induction f as [|c f IH]; intros b H; simpl.
  - now rewrite app_nil_r.
  - simpl in H. apply orb_false_elim in H as [Hc H].
    apply is_special_inv in Hc as (Hd & _ & Hn).
    unfold process_char. simpl. rewrite Hn, Hd. simpl.
    unfold add_char. simpl. rewrite (IH _ H). now rewrite <- app_assoc.
Qed.

(** Inside quotes every character but the quote is taken as it is, a
    doubled quote gives one quote, and the end of a line changes nothing. *)
Lemma advance_quoted_body acc b f x :
  advance d (Parser IN_QUOTED_FIELD acc b)
          (events_of (double_quotes f ++ [DQUOTE]) (Some x))
  = Some (Parser QUOTE_IN_QUOTED_FIELD acc (b ++ f)).
Proof.
  revert b. induction f as [|c f IH]; intros b.
  - simpl. now rewrite app_nil_r.
  - unfold double_quotes. simpl List.flat_map. fold (double_quotes f).
    destruct (c =? DQUOTE) eqn:Ec.
    + apply N.eqb_eq in Ec as ->. rewrite <- !app_comm_cons. simpl app.
      rewrite !events_of_cons.
      replace (eol_after DQUOTE _) with false by now destruct (head _).
      replace (eol_after DQUOTE _) with false by now destruct (head _).
      simpl. unfold add_char, goto. simpl. rewrite IH.
      now rewrite <- app_assoc.
    + rewrite <- app_comm_cons. simpl app. rewrite events_of_cons.
      simpl. unfold process_char at 1. simpl. rewrite Ec.
      destruct (eol_after c _); simpl; unfold add_char; simpl;
        rewrite IH; now rewrite <- app_assoc.
Qed.

Lemma ends_field_no_eol x y : ends_field d x y -> eol_after x (Some y) = false.
Proof using d_ordinary.
  destruct ordinary_inv as (_ & Hcr & Hlf).
  intros [->|[-> ->]]; [|reflexivity].
  unfold eol_after. now rewrite Hlf, Hcr.
Qed.

Lemma advance_quoted acc f x y :
  ends_field d x y ->
  advance d (Parser START_FIELD acc [])
          (events_of ((DQUOTE :: double_quotes f ++ [DQUOTE]) ++ [x]) (Some y))
  = Some (Parser (after_field d x) (acc ++ [f]) []).
Proof using d_ordinary.
  intros Hx. destruct ordinary_inv as (Hq & Hcr & Hlf).
  rewrite events_of_app. simpl head. simpl from_option.
  rewrite events_of_cons.
  replace (eol_after DQUOTE _) with false by now destruct (head _).
  rewrite advance_app. simpl app.
  change (advance d (Parser START_FIELD acc []) (Chr DQUOTE :: ?e))
    with (advance d (Parser IN_QUOTED_FIELD acc []) e).
  rewrite advance_quoted_body. simpl.
  rewrite (ends_field_no_eol _ _ Hx). simpl.
  unfold after_field, process_char. simpl.
  destruct Hx as [->|[-> _]].
  - rewrite Hq, N.eqb_refl. reflexivity.
  - rewrite (N.eqb_sym CR d), Hcr. reflexivity.
Qed.

Lemma advance_field acc f x y :
  ends_field d x y ->
  advance d (Parser START_FIELD acc [])
          (events_of (write_field d f ++ [x]) (Some y))
  = Some (Parser (after_field d x) (acc ++ [f]) []).
Proof using d_ordinary.
  intros Hx. unfold write_field.
  destruct (needs_quotes d f) eqn:Hf; [now apply advance_quoted|].
  destruct ordinary_inv as (Hq & Hcr & Hlf).
  rewrite events_of_app. simpl head. simpl from_option.
  rewrite (events_of_plain _ _ (needs_quotes_plain _ Hf)).
  simpl events_of. rewrite (ends_field_no_eol _ _ Hx). simpl app.
  rewrite advance_app.
  assert (advance d (Parser START_FIELD acc []) (List.map Chr f)
          = Some (if is_empty f then Parser START_FIELD acc []
                  else Parser IN_FIELD acc f)) as ->.
  { destruct f as [|c f]; [reflexivity|].
    simpl in Hf. apply orb_false_elim in Hf as [Hc Hf].
    apply is_special_inv in Hc as (Hd & Hcq & Hn).
    simpl. unfold process_char, start_field. simpl. rewrite Hn, Hcq, Hd.
    simpl. unfold add_char, goto. simpl. now rewrite advance_in_field. }
  unfold after_field.
  destruct Hx as [->|[-> _]]; destruct f; cbn -[N.eqb];
    unfold process_char, start_field, is_newline; cbn -[N.eqb];
    rewrite ?Hq, ?Hlf, ?Hcr, ?N.eqb_refl, ?(N.eqb_sym CR d), ?Hcr;
    reflexivity.
Qed.

Lemma writerow_body row : writerow d row = row_body d row ++ [CR; LF].
Proof. reflexivity. Qed.

Lemma after_field_CR : after_field d CR = EAT_CRNL.
Proof using d_ordinary.
  destruct ordinary_inv as (_ & Hcr & _).
  unfold after_field. now rewrite (N.eqb_sym CR d), Hcr.
Qed.

Lemma after_field_delimiter : after_field d d = START_FIELD.
Proof. unfold after_field. now rewrite N.eqb_refl. Qed.

Lemma advance_joined acc row :
  row <> [] ->
  advance d (Parser START_FIELD acc [])
          (events_of (join [d] (List.map (write_field d) row) ++ [CR]) (Some LF))
  = Some (Parser EAT_CRNL (acc ++ row) []).
Proof using d_ordinary.
  revert acc. induction row as [|f row IH]; intros acc Hne; [easy|].
  destruct row as [|g row].
  - simpl join. rewrite (advance_field acc f CR LF), after_field_CR;
      [reflexivity | right; auto].
  - change (join [d] (List.map (write_field d) (f :: g :: row)))
      with (write_field d f ++ [d]
            ++ join [d] (List.map (write_field d) (g :: row))).
    rewrite <- !app_assoc, (app_assoc (write_field d f)), events_of_app.
    rewrite advance_app.
    assert (exists y, from_option Some (Some LF)
              (head ((join [d] (List.map (write_field d) (g :: row))) ++ [CR]))
            = Some y) as [y ->] by (destruct (head _); simpl; eauto).
    rewrite (advance_field acc f d y), after_field_delimiter by now left.
    simpl. rewrite IH by easy. now rewrite <- app_assoc.
Qed.

Lemma advance_row row :
  row <> [] ->
  advance d (Parser START_FIELD [] [])
          (events_of (row_body d row ++ [CR]) (Some LF))
  = Some (Parser EAT_CRNL row []).
Proof using d_ordinary.
  intros Hne.
  assert (row = [[]] \/ row_body d row = join [d] (List.map (write_field d) row))
    as [-> | ->].
  { destruct row as [|[|c f] [|g row]]; auto. }
  - change (row_body d [[]] ++ [CR])
      with ((DQUOTE :: double_quotes [] ++ [DQUOTE]) ++ [CR]).
    rewrite (advance_quoted [] [] CR LF), after_field_CR;
      [reflexivity | right; auto].
  - now apply (advance_joined []).
Qed.

Lemma row_body_head row :
  row <> [] ->
  exists c s, row_body d row ++ [CR] = c :: s /\ is_newline c = false.
Proof using d_ordinary.
  destruct ordinary_inv as (Hq & Hcr & Hlf).
  assert (is_newline d = false) as Hd
    by (unfold is_newline; now rewrite Hlf, Hcr).
  intros Hne. destruct row as [|f row]; [easy|]. clear Hne.
  destruct f as [|c f].
  - destruct row as [|g row].
    + exists DQUOTE. eexists. split; reflexivity.
    + exists d. eexists. split; [reflexivity|exact Hd].
  - assert (exists c' s', write_field d (c :: f) = c' :: s'
                          /\ is_newline c' = false) as (c' & s' & E & Hc').
    { unfold write_field. destruct (needs_quotes d (c :: f)) eqn:Hf.
      - exists DQUOTE. eexists. split; reflexivity.
      - exists c, f. split; [reflexivity|].
        simpl in Hf. apply orb_false_elim in Hf as [Hc _].
        now apply is_special_inv in Hc as (_ & _ & ?). }
    exists c'. unfold row_body.
    destruct row as [|g row].
    + simpl join. rewrite E. eexists. split; [reflexivity|exact Hc'].
    + change (join [d] (List.map (write_field d) ((c :: f) :: g :: row)))
        with (write_field d (c :: f) ++ [d]
              ++ join [d] (List.map (write_field d) (g :: row))).
      rewrite E. eexists. split; [reflexivity|exact Hc'].
Qed.

(** At the start of a record a character that is no line ending is
    handled as at the start of a field. *)
Lemma records_start c evs :
  is_newline c = false ->
  records d fresh (Chr c :: evs)
  = records d (Parser START_FIELD [] []) (Chr c :: evs).
Proof. intros H. simpl. unfold process_char. simpl. now rewrite H. Qed.

(** One row written, read back, and the rest of the file after it. *)
Lemma records_writerow row (rest : pystr) :
  row <> [] ->
  records d fresh (events_of (writerow d row ++ rest) None)
  = let* rs := records d fresh (events_of rest None) in Ok (row :: rs).
Proof using d_ordinary.
  intros Hne. rewrite writerow_body.
  change [CR; LF] with ([CR] ++ [LF]).
  rewrite app_assoc, <- app_assoc, events_of_app. simpl head. simpl from_option.
  destruct (row_body_head row Hne) as (c & s & E & Hc).
  pose proof (advance_row row Hne) as Hrow.
  rewrite E in *. rewrite events_of_cons in *. rewrite <- app_comm_cons.
  rewrite (records_start _ _ Hc), app_comm_cons.
  rewrite (records_advance _ _ _ _ _ Hrow).
  simpl app. rewrite events_of_cons, eol_after_LF. reflexivity.
Qed.

(** The round trip: the rows of a written file are read back as they
    were written. *)
Lemma reader_writerows (rows : list (list pystr)) :
  Forall (fun row => row <> []) rows ->
  reader d (List.concat (List.map (writerow d) rows)) = Ok rows.
Proof using d_ordinary.
  unfold reader. rewrite events_of_readlines.
  induction rows as [|row rows IH]; intros H; [reflexivity|].
  inversion H as [|? ? Hrow Hrows]; subst.
  simpl List.concat. rewrite (records_writerow _ _ Hrow), (IH Hrows).
  reflexivity.
Qed.

End RoundTrip.

(** * The catalogue *)

Section DictFacts.

Implicit Types (m : gmap pystr (option pystr)) (k : pystr).
Implicit Types (entries : list (pystr * option pystr)).

Lemma lookup_fold_insert entries m k :
  fold_left (fun m kv => <[kv.1 := kv.2]> m) entries m !! k
  = assoc_last k entries (m !! k).
Proof.
  revert m. induction entries as [|[k' v] entries IH]; intros m;
    [reflexivity|].
  simpl. rewrite IH, lookup_insert. f_equal.
  case_bool_decide; case_decide; congruence.
Qed.

Lemma lookup_dict_of entries k :
  dict_of entries !! k = assoc_last k entries None.
Proof. unfold dict_of. now rewrite lookup_fold_insert, lookup_empty. Qed.

Lemma dom_fold_insert entries m :
  dom (fold_left (fun m kv => <[kv.1 := kv.2]> m) entries m)
  = list_to_set entries.*1 ∪ dom m.
Proof.
  revert m. induction entries as [|[k' v] entries IH]; intros m; simpl.
  - set_solver.
  - rewrite IH, dom_insert_L. set_solver.
Qed.

Lemma dom_dict_of entries :
  dom (dict_of entries) = list_to_set entries.*1.
Proof. unfold dict_of. rewrite dom_fold_insert. set_solver. Qed.

End DictFacts.

Section CatalogFacts.

Implicit Types (r : ModuleRecord) (rows : list ModuleRecord).
Implicit Types (fs : filesystem) (path key : pystr).

Lemma semicolon_ordinary : ordinary SEMICOLON = true.
Proof. reflexivity. Qed.

(** A row of the catalogue, read as a dictionary, is the record. *)
Lemma make_row_record r : make_row fieldnames (record_fields r) = to_dict r.
Proof. reflexivity. Qed.

Lemma to_dict_key r :
  items (to_dict r) !! ustr "ModArchiveID" = Some (Some (ModArchiveID r)).
Proof. unfold to_dict. simpl items. now rewrite lookup_dict_of. Qed.

(** Writing the dictionary of a record writes its eight fields. *)
Lemma dict_to_list_record r :
  dict_to_list fieldnames (to_dict r) = Ok (record_fields r).
Proof.
  unfold dict_to_list, to_dict. simpl surplus. simpl items.
  rewrite dom_dict_of.
  rewrite (bool_decide_eq_true_2 (None = None) eq_refl).
  rewrite bool_decide_eq_true_2 by reflexivity.
  reflexivity.
Qed.

Lemma same_id_decide key r :
  bool_decide (Some (ModArchiveID r) = Some key) = same_id key r.
Proof. unfold same_id. apply bool_decide_ext. split; congruence. Qed.

(** The first loop keeps the rows of the other keys. *)
Lemma keep_others_records key rows :
  keep_others key (List.map to_dict rows)
  = Ok (List.map to_dict
          (List.filter (fun x => negb (same_id key x)) rows)).
Proof.
  induction rows as [|r rows IH]; [reflexivity|].
  cbn [List.map keep_others List.filter].
  rewrite to_dict_key, IH, same_id_decide. cbn [bind].
  now destruct (same_id key r).
Qed.

Lemma writerows_records rows (written : pystr) :
  writerows (List.map to_dict rows) written
  = (written ++ List.concat
       (List.map (fun r => writerow SEMICOLON (record_fields r)) rows), None).
Proof.
  revert written. induction rows as [|r rows IH]; intros written.
  - simpl. now rewrite app_nil_r.
  - cbn [List.map writerows List.concat].
    rewrite dict_to_list_record, IH. now rewrite <- app_assoc.
Qed.

Lemma catalog_text_rows rows :
  catalog_text rows
  = List.concat (List.map (writerow SEMICOLON)
                          (fieldnames :: List.map record_fields rows)).
Proof. unfold catalog_text. simpl. now rewrite List.map_map. Qed.

(** The rows of a catalogue file, as [csv.reader] returns them. *)
Lemma reader_catalog rows :
  reader SEMICOLON (catalog_text rows)
  = Ok (fieldnames :: List.map record_fields rows).
Proof.
  rewrite catalog_text_rows.
  apply (reader_writerows SEMICOLON semicolon_ordinary).
  constructor; [easy|]. apply Forall_forall. intros row Hrow.
  apply list_elem_of_In, in_map_iff in Hrow as [r [<- _]]. easy.
Qed.

Lemma DictReader_catalog rows :
  DictReader SEMICOLON (catalog_text rows) = Ok (List.map to_dict rows).
Proof.
  unfold DictReader. rewrite reader_catalog. cbn [bind]. f_equal.
  induction rows as [|r rows IH]; [reflexivity|].
  cbn [List.map List.filter]. rewrite bool_decide_eq_false_2 by easy.
  cbn [negb List.map]. now rewrite IH, make_row_record.
Qed.

(** A file that [ensure_csv_exists] has just created has no data row. *)
Lemma DictReader_created :
  DictReader SEMICOLON (writerow COMMA fieldnames) = Ok [].
Proof. vm_compute. reflexivity. Qed.

Lemma path_exists_true fs path :
  is_Some (fs !! path) -> path_exists fs path = true.
Proof. intros H. now apply bool_decide_eq_true_2. Qed.

Lemma path_exists_false fs path :
  fs !! path = None -> path_exists fs path = false.
Proof.
  intros H. apply bool_decide_eq_false_2. rewrite H. now intros [x Hx].
Qed.

Lemma ensure_csv_exists_present fs path :
  is_Some (fs !! path) -> ensure_csv_exists path fs = fs.
Proof. intros H. unfold ensure_csv_exists. now rewrite path_exists_true. Qed.

Lemma ensure_csv_exists_absent fs path :
  fs !! path = None ->
  ensure_csv_exists path fs = <[path := writerow COMMA fieldnames]> fs.
Proof. intros H. unfold ensure_csv_exists. now rewrite path_exists_false. Qed.

Lemma ensure_csv_exists_other fs path path' :
  path <> path' -> ensure_csv_exists path fs !! path' = fs !! path'.
Proof.
  intros H. unfold ensure_csv_exists.
  destruct (path_exists fs path); [reflexivity|]. now apply lookup_insert_ne.
Qed.

Lemma ensure_csv_exists_is_Some fs path :
  is_Some (ensure_csv_exists path fs !! path).
Proof.
  destruct (fs !! path) as [c|] eqn:E.
  - rewrite ensure_csv_exists_present; rewrite E; eauto.
  - rewrite ensure_csv_exists_absent, lookup_insert_eq by exact E. eauto.
Qed.

(** What the first loop loads after the creation step. *)
Lemma loaded_rows fs path rows r :
  catalog_at fs path rows ->
  match ensure_csv_exists CSV_FILENAME fs !! path with
  | Some content =>
      let* existing := DictReader SEMICOLON content in
      keep_others (ModArchiveID r) existing
  | None => Ok []
  end
  = Ok (List.map to_dict
          (List.filter (fun x => negb (same_id (ModArchiveID r) x)) rows)).
Proof.
  intros [H|[H ->]].
  - assert (ensure_csv_exists CSV_FILENAME fs !! path
            = Some (catalog_text rows)) as ->.
    { destruct (decide (CSV_FILENAME = path)) as [<-|Hne].
      - rewrite ensure_csv_exists_present; rewrite H; eauto.
      - now rewrite ensure_csv_exists_other. }
    rewrite DictReader_catalog. cbn [bind]. apply keep_others_records.
  - destruct (decide (CSV_FILENAME = path)) as [<-|Hne].
    + rewrite ensure_csv_exists_absent, lookup_insert_eq by exact H.
      now rewrite DictReader_created.
    + now rewrite ensure_csv_exists_other, H.
Qed.

(** One call: the file is rewritten with the row of the key replaced. *)
Lemma update_metadata_csv_upsert fs path rows r :
  catalog_at fs path rows ->
  update_metadata_csv path r fs
  = Returned (<[path := catalog_text (upsert rows r)]>
                (ensure_csv_exists CSV_FILENAME fs)).
Proof.
  intros H. unfold update_metadata_csv.
  rewrite (loaded_rows _ _ _ r H).
  change [to_dict r] with (List.map to_dict [r]).
  rewrite <- List.map_app, writerows_records. reflexivity.
Qed.

Lemma catalog_at_update fs path rows :
  catalog_at (<[path := catalog_text rows]> fs) path rows.
Proof. left. apply lookup_insert_eq. Qed.

End CatalogFacts.

(** ** Sequences of calls *)

Section UpsertFacts.

Implicit Types (r : ModuleRecord) (rows rs : list ModuleRecord).
Implicit Types (fs : filesystem) (path key : pystr).

Lemma upsert_all_snoc rows rs r :
  upsert_all rows (rs ++ [r]) = upsert (upsert_all rows rs) r.
Proof. unfold upsert_all. now rewrite fold_left_app. Qed.

Lemma same_id_refl r : same_id (ModArchiveID r) r = true.
Proof. now apply bool_decide_eq_true_2. Qed.

Lemma filter_filter_out key rows :
  List.filter (same_id key)
              (List.filter (fun x => negb (same_id key x)) rows) = [].
Proof.
  induction rows as [|x rows IH]; [reflexivity|]. simpl.
  destruct (same_id key x) eqn:E; simpl; [|rewrite E]; exact IH.
Qed.

Lemma filter_filter_other key key' rows :
  key <> key' ->
  List.filter (same_id key)
              (List.filter (fun x => negb (same_id key' x)) rows)
  = List.filter (same_id key) rows.
Proof.
  intros Hne. induction rows as [|x rows IH]; [reflexivity|]. simpl.
  destruct (same_id key' x) eqn:E'; simpl.
  - rewrite IH. destruct (same_id key x) eqn:E; [|reflexivity].
    apply bool_decide_eq_true_1 in E, E'. congruence.
  - now rewrite IH.
Qed.

(** After any sequence of calls, the rows of a key are: the record last
    passed in for it, alone; or, for a key never passed in, the rows the
    catalogue had before. *)
Lemma filter_upsert_all key rows rs :
  List.filter (same_id key) (upsert_all rows rs)
  = match latest key rs with
    | Some r => [r]
    | None => List.filter (same_id key) rows
    end.
Proof.
  induction rs as [|r rs IH] using rev_ind; [reflexivity|].
  rewrite upsert_all_snoc. unfold upsert, latest.
  rewrite !List.filter_app. cbn [List.filter].
  destruct (decide (key = ModArchiveID r)) as [->|Hne].
  - rewrite same_id_refl, filter_filter_out, last_snoc. reflexivity.
  - rewrite (filter_filter_other _ _ _ Hne), IH.
    assert (same_id key r = false) as ->
      by (apply bool_decide_eq_false_2; congruence).
    now rewrite !app_nil_r.
Qed.

Lemma update_all_app fs path rs rs' :
  update_all path (rs ++ rs') fs
  = match update_all path rs fs with
    | Returned fs' => update_all path rs' fs'
    | Raised e fs' => Raised e fs'
    end.
Proof.
  revert fs. induction rs as [|r rs IH]; intros fs; [reflexivity|].
  simpl. destruct (update_metadata_csv path r fs); [apply IH|reflexivity].
Qed.

(** Every call of a sequence returns, and the file follows [upsert]. *)
Lemma update_all_catalog fs path rows rs :
  catalog_at fs path rows ->
  exists fs',
    update_all path rs fs = Returned fs'
    /\ catalog_at fs' path (upsert_all rows rs)
    /\ (rs <> [] -> fs' !! path = Some (catalog_text (upsert_all rows rs))).
Proof.
  revert fs rows. induction rs as [|r rs IH]; intros fs rows H.
  - exists fs. repeat split; easy.
  - simpl. rewrite (update_metadata_csv_upsert _ _ _ r H).
    destruct (IH _ (upsert rows r)
                (catalog_at_update (ensure_csv_exists CSV_FILENAME fs) path _))
      as (fs' & E & Hat & Hsome).
    exists fs'. repeat split; [exact E|exact Hat|]. intros _.
    destruct rs as [|r' rs]; [|now apply Hsome].
    injection E as <-. apply lookup_insert_eq.
Qed.

Lemma data_rows_catalog fs path rows :
  fs !! path = Some (catalog_text rows) ->
  data_rows fs path = Some (List.map record_fields rows).
Proof. intros H. unfold data_rows. now rewrite H, reader_catalog. Qed.

Lemma upsert_upsert rows r : upsert (upsert rows r) r = upsert rows r.
Proof.
  unfold upsert. rewrite List.filter_app. cbn [List.filter].
  rewrite same_id_refl. cbn [negb]. rewrite app_nil_r. f_equal.
  induction rows as [|x rows IH]; [reflexivity|]. simpl.
  destruct (same_id (ModArchiveID r) x) eqn:Ex; simpl;
    [|rewrite Ex; simpl; f_equal]; exact IH.
Qed.

(** A second call with the same record changes nothing. *)
Lemma update_metadata_csv_twice fs path rows r fs' :
  catalog_at fs path rows ->
  update_metadata_csv path r fs = Returned fs' ->
  update_metadata_csv path r fs' = Returned fs'.
Proof.
  intros H E. rewrite (update_metadata_csv_upsert _ _ _ r H) in E.
  injection E as <-.
  rewrite (update_metadata_csv_upsert _ _ (upsert rows r) r)
    by apply catalog_at_update.
  f_equal.
  rewrite upsert_upsert, ensure_csv_exists_present.
  - now rewrite insert_insert_eq.
  - destruct (decide (path = CSV_FILENAME)) as [->|Hne].
    + rewrite lookup_insert_eq. eauto.
    + rewrite lookup_insert_ne by exact Hne. apply ensure_csv_exists_is_Some.
Qed.

End UpsertFacts.

(** ** The properties of the catalogue *)

Section CatalogClaims.

Implicit Types (r : ModuleRecord) (rows rs : list ModuleRecord).
Implicit Types (fs : filesystem) (path key : pystr).



Lemma filter_record_fields key rows :
  List.filter (fun row => bool_decide (head row = Some key))
              (List.map record_fields rows)
  = List.map record_fields (List.filter (same_id key) rows).
Proof.
  induction rows as [|x rows IH]; [reflexivity|].
  cbn [List.map List.filter]. rewrite IH.
  replace (bool_decide (head (record_fields x) = Some key))
    with (same_id key x); [now destruct (same_id key x)|].
  unfold same_id. apply bool_decide_ext. simpl. split; congruence.
Qed.



(** What a call leaves at a path other than its own. *)
Lemma files_update_other fs path r path' :
  path' <> path ->
  files (update_metadata_csv path r fs) !! path'
  = ensure_csv_exists CSV_FILENAME fs !! path'.
Proof.
  intros Hne. unfold update_metadata_csv.
  destruct (match ensure_csv_exists CSV_FILENAME fs !! path with
            | Some content =>
                let* existing := DictReader SEMICOLON content in
                keep_others (ModArchiveID r) existing
            | None => Ok []
            end) as [loaded|e]; [|reflexivity].
  destruct (writerows _ _) as [content [e|]]; simpl;
    now rewrite lookup_insert_ne.
Qed.

Lemma files_update_self fs path r :
  is_Some (files (update_metadata_csv path r fs) !! path)
  \/ files (update_metadata_csv path r fs)
     = ensure_csv_exists CSV_FILENAME fs.
Proof.
  unfold update_metadata_csv.
  destruct (match ensure_csv_exists CSV_FILENAME fs !! path with
            | Some content =>
                let* existing := DictReader SEMICOLON content in
                keep_others (ModArchiveID r) existing
            | None => Ok []
            end) as [loaded|e]; [|now right].
  left. destruct (writerows _ _) as [content [e|]]; simpl;
    rewrite lookup_insert_eq; eauto.
Qed.







End CatalogClaims.

(** * Further properties of the sanitiser and of the scraper *)

Section MoreSanitizeFacts.

Variable alnum_beyond_latin1 : N -> bool.

Implicit Types (s : pystr) (c : N).

Lemma strip_sublist s : strip s `sublist_of` s.
Proof.
  destruct (strip_split s) as (pre & post & E). rewrite E at 2.
  apply sublist_inserts_l, sublist_inserts_r. reflexivity.
Qed.

Lemma filter_sublist (f : N -> bool) s : List.filter f s `sublist_of` s.
Proof.
  induction s as [|c s IH]; simpl; [constructor|].
  destruct (f c); [now apply sublist_skip|now apply sublist_cons].
Qed.

(** X18: sanitising only deletes characters: the result is the input with
    some characters left out, the others in their order; in particular it
    is never longer than the input. *)
Theorem sanitize_filename_sublist s :
  sanitize_filename alnum_beyond_latin1 s `sublist_of` s
  /\ (length (sanitize_filename alnum_beyond_latin1 s) <= length s)%nat.
Proof.
  assert (sanitize_filename alnum_beyond_latin1 s `sublist_of` s) as H.
  { unfold sanitize_filename. etransitivity;
      [apply strip_sublist|apply filter_sublist]. }
  split; [exact H|now apply sublist_length].
Qed.

(** X17: the names that [sanitize_filename] leaves as they are: exactly
    those made of kept characters only that neither start nor end with
    whitespace. *)
Theorem sanitize_filename_fixed_points s :
  sanitize_filename alnum_beyond_latin1 s = s
  <-> forallb (keep_char alnum_beyond_latin1) s = true
      /\ leading_space s = false /\ trailing_space s = false.
Proof.
  split.
  - intros E. rewrite <- E. split; [apply sanitize_kept|].
    split; [apply strip_leading|apply strip_trailing].
  - intros (Hk & Hl & Ht). unfold sanitize_filename.
    rewrite (filter_fixed _ _ Hk). now apply strip_fixed.
Qed.

(** A sanitised name holds no ASCII character outside the allowed class. *)
Lemma sanitize_excludes s c :
  (c <? 128) = true -> ascii_allowed c = false ->
  ~ In c (sanitize_filename alnum_beyond_latin1 s).
Proof.
  intros Hc Ha Hin. pose proof (sanitize_kept alnum_beyond_latin1 s) as H.
  rewrite forallb_forall in H. specialize (H c Hin).
  rewrite (keep_char_ascii _ _ H Hc) in Ha. discriminate Ha.
Qed.

End MoreSanitizeFacts.

Section MoreScraperFacts.

Implicit Types (soup : list node) (data : metadata) (line : pystr).

Lemma strip_trimmed (s : pystr) : trimmed (strip s).
Proof. split; [apply strip_leading|apply strip_trailing]. Qed.

Lemma value_of_trimmed line v : value_of line = Ok v -> trimmed v.
Proof.
  unfold value_of. destruct (nth_error _ _); [|easy].
  intros [= <-]. apply strip_trimmed.
Qed.

Lemma scan_line_trimmed data line data' :
  info_trimmed data -> scan_line data line = Ok data' -> info_trimmed data'.
Proof.
  intros (H1 & H2 & H3 & H4 & H5). unfold scan_line.
  repeat match goal with
  | |- context [if contains ?l line then _ else _] =>
      destruct (contains l line);
      [ destruct (value_of line) as [v|] eqn:E; [|easy];
        apply value_of_trimmed in E; intros [= <-];
        unfold info_trimmed; simpl; tauto | ]
  end.
  intros [= <-]. unfold info_trimmed. tauto.
Qed.

Lemma scan_lines_trimmed (lines : list pystr) data data' :
  info_trimmed data -> scan_lines data lines = Ok data' -> info_trimmed data'.
Proof.
  revert data. induction lines as [|line lines IH]; intros data H; simpl.
  - now intros [= <-].
  - destruct (scan_line data line) as [d1|] eqn:E; [|easy]. simpl.
    apply IH. eapply scan_line_trimmed; eassumption.
Qed.

Lemma artist_loop_info data (headers : list located) data' :
  artist_loop data headers = Ok data' ->
  mod_id data' = mod_id data /\ md5 data' = md5 data
  /\ format data' = format data /\ channels data' = channels data
  /\ genre data' = genre data.
Proof.
  revert data. induction headers as [|h headers IH]; intros data; simpl.
  - intros [= <-]. tauto.
  - destruct (direct_text (children_of h)) as [t|]; [|easy].
    destruct (pystr_eqb (strip t) artist_label);
      [destruct (find_next_sibling (ustr "ul") h)|];
      intros E; apply IH in E; simpl in E; exact E.
Qed.

(** X16: whatever the page, every value the scraper returns for
    [mod_id], [md5], [format], [channels] and [genre] is free of leading
    and trailing whitespace (it is the default or a stripped value). *)
Theorem scrape_metadata_trimmed soup data :
  scrape_metadata soup = Ok data ->
  trimmed (mod_id data) /\ trimmed (md5 data) /\ trimmed (format data)
  /\ trimmed (channels data) /\ trimmed (genre data).
Proof.
  unfold scrape_metadata. intros E.
  destruct (match find_info_section soup with
            | Some section => scan_lines all_unknown (info_lines section)
            | None => Ok all_unknown
            end) as [d|] eqn:Es; [|easy].
  simpl in E. apply artist_loop_info in E as (-> & -> & -> & -> & ->).
  assert (info_trimmed all_unknown) as H0 by (repeat split; reflexivity).
  destruct (find_info_section soup).
  - exact (scan_lines_trimmed _ _ _ H0 Es).
  - injection Es as <-. exact H0.
Qed.

Lemma scrape_metadata_trimmed_witness :
  trimmed (mod_id sample_metadata) /\ trimmed (md5 sample_metadata)
  /\ trimmed (format sample_metadata) /\ trimmed (channels sample_metadata)
  /\ trimmed (genre sample_metadata).
Proof. apply (scrape_metadata_trimmed page_info). reflexivity. Defined.

(** X15: the scraper fails exactly on the pages that have a level-2
    heading without a string child, and then with [AttributeError]; it
    raises no other exception, the index [1] of the split included. *)
Theorem scrape_metadata_fails_iff soup :
  (scrape_metadata soup = Raise AttributeError
   <-> existsb lacks_direct_text (h2_headers soup) = true)
  /\ (forall e, scrape_metadata soup = Raise e -> e = AttributeError).
Proof.
  destruct (existsb lacks_direct_text (h2_headers soup)) eqn:E.
  - pose proof (scrape_metadata_raises soup E) as H. rewrite H.
    split; [tauto|]. now intros e [= <-].
  - destruct (scrape_metadata_returns soup E) as (d & H & _). rewrite H.
    split; [split; discriminate|discriminate].
Qed.

End MoreScraperFacts.

(** * Further properties of the catalogue file *)

Section MoreCatalogFacts.

Implicit Types (r : ModuleRecord) (row : list pystr).
Implicit Types (rows raws : list (list pystr)).
Implicit Types (fs : filesystem) (path key content : pystr).

(** X19: [ensure_csv_exists] keeps every file that exists, the one it is
    called for included, with its content; afterwards the file it is
    called for exists; and a second call changes nothing. *)
Theorem ensure_csv_exists_keeps fs path :
  (forall path' c, fs !! path' = Some c ->
                   ensure_csv_exists path fs !! path' = Some c)
  /\ is_Some (ensure_csv_exists path fs !! path)
  /\ ensure_csv_exists path (ensure_csv_exists path fs)
     = ensure_csv_exists path fs.
Proof.
  split; [|split].
  - intros path' c H. destruct (decide (path = path')) as [->|Hne].
    + rewrite ensure_csv_exists_present; rewrite H; eauto.
    + now rewrite ensure_csv_exists_other.
  - apply ensure_csv_exists_is_Some.
  - apply ensure_csv_exists_present, ensure_csv_exists_is_Some.
Qed.



(** The dictionary of a row under the header of the catalogue: its key,
    and what [DictWriter] writes for it. *)
Lemma make_row_key row :
  is_row row = true ->
  items (make_row fieldnames row) !! ustr "ModArchiveID" = Some (head row).
Proof.
  intros H.
  do 9 (try destruct row as [|? row]); try discriminate H;
    vm_compute; reflexivity.
Qed.

Lemma dict_to_list_make_row row :
  dict_to_list fieldnames (make_row fieldnames row)
  = if (length row <=? length fieldnames)%nat then Ok (pad_row row)
    else Raise ValueError.
Proof.
  do 9 (try destruct row as [|? row]); vm_compute; reflexivity.
Qed.

Lemma keep_others_make_row key rows :
  forallb is_row rows = true ->
  keep_others key (List.map (make_row fieldnames) rows)
  = Ok (List.map (make_row fieldnames) (other_rows key rows)).
Proof.
  induction rows as [|row rows IH]; [reflexivity|].
  intros H. apply andb_prop in H as [Hrow H].
  cbn [List.map keep_others other_rows List.filter].
  rewrite (make_row_key _ Hrow), (IH H). cbn [bind].
  fold (other_rows key rows).
  replace (bool_decide (Some (head row) = Some (Some key)))
    with (bool_decide (head row = Some key))
    by (apply bool_decide_ext; split; congruence).
  now destruct (bool_decide (head row = Some key)).
Qed.

Lemma writerows_make_row rows (written : pystr) :
  forallb fits rows = true ->
  writerows (List.map (make_row fieldnames) rows) written
  = (written ++ List.concat (List.map (writerow SEMICOLON)
                                      (List.map pad_row rows)), None).
Proof.
  revert written. induction rows as [|row rows IH]; intros written H.
  - simpl. now rewrite app_nil_r.
  - apply andb_prop in H as [Hrow H]. unfold fits in Hrow.
    cbn [List.map writerows List.concat].
    rewrite dict_to_list_make_row, Hrow, (IH _ H). now rewrite <- app_assoc.
Qed.

Lemma writerows_app (rows rows' : list dictrow) (written : pystr) :
  writerows (rows ++ rows') written
  = match writerows rows written with
    | (written', None) => writerows rows' written'
    | (written', Some e) => (written', Some e)
    end.
Proof.
  revert written. induction rows as [|row rows IH]; intros written;
    [reflexivity|].
  simpl. destruct (dict_to_list fieldnames row); [apply IH|reflexivity].
Qed.

Lemma DictReader_rows content (header : list pystr) raws :
  reader SEMICOLON content = Ok (header :: raws) ->
  DictReader SEMICOLON content
  = Ok (List.map (make_row header) (List.filter is_row raws)).
Proof. intros H. unfold DictReader. now rewrite H. Qed.

Lemma forallb_is_row_filter raws : forallb is_row (List.filter is_row raws) = true.
Proof.
  induction raws as [|row raws IH]; [reflexivity|]. simpl.
  destruct (is_row row) eqn:E; simpl; [rewrite E|]; exact IH.
Qed.

Lemma ensure_csv_exists_lookup fs path content :
  fs !! path = Some content ->
  ensure_csv_exists CSV_FILENAME fs !! path = Some content.
Proof.
  intros H. destruct (decide (CSV_FILENAME = path)) as [<-|Hne].
  - rewrite ensure_csv_exists_present; rewrite H; eauto.
  - now rewrite ensure_csv_exists_other.
Qed.

Lemma table_text_app rows rows' :
  table_text (rows ++ rows')
  = table_text rows ++ List.concat (List.map (writerow SEMICOLON) rows').
Proof.
  unfold table_text. cbn [List.map List.concat].
  now rewrite List.map_app, concat_app, <- app_assoc.
Qed.

Lemma update_metadata_csv_table fs path content raws r :
  fs !! path = Some content ->
  reader SEMICOLON content = Ok (fieldnames :: raws) ->
  forallb fits (other_rows (ModArchiveID r) (List.filter is_row raws)) = true ->
  update_metadata_csv path r fs
  = Returned
      (<[path := table_text
                   (List.map pad_row
                      (other_rows (ModArchiveID r) (List.filter is_row raws))
                    ++ [record_fields r])]>
         (ensure_csv_exists CSV_FILENAME fs)).
Proof.
  intros Hfs Hread Hfit. unfold update_metadata_csv.
  rewrite (ensure_csv_exists_lookup _ _ _ Hfs), (DictReader_rows _ _ _ Hread).
  cbn [bind]. rewrite keep_others_make_row by apply forallb_is_row_filter.
  rewrite writerows_app, (writerows_make_row _ _ Hfit).
  cbn [writerows]. rewrite dict_to_list_record.
  rewrite table_text_app. unfold table_text. cbn [List.map List.concat].
  now rewrite app_nil_r, <- !app_assoc.
Qed.



Lemma update_metadata_csv_at_long_row fs path content raws r before long after :
  fs !! path = Some content ->
  reader SEMICOLON content = Ok (fieldnames :: raws) ->
  other_rows (ModArchiveID r) (List.filter is_row raws)
  = before ++ long :: after ->
  forallb fits before = true ->
  fits long = false ->
  update_metadata_csv path r fs
  = Raised ValueError
      (<[path := table_text (List.map pad_row before)]>
         (ensure_csv_exists CSV_FILENAME fs)).
Proof.
  intros Hfs Hread Hkept Hfit Hlong. unfold update_metadata_csv.
  rewrite (ensure_csv_exists_lookup _ _ _ Hfs), (DictReader_rows _ _ _ Hread).
  cbn [bind]. rewrite keep_others_make_row by apply forallb_is_row_filter.
  rewrite Hkept, List.map_app, <- app_assoc, writerows_app.
  rewrite (writerows_make_row _ _ Hfit).
  cbn [List.map app writerows]. rewrite dict_to_list_make_row.
  unfold fits in Hlong. rewrite Hlong. reflexivity.
Qed.



Lemma assoc_last_absent k (entries : list (pystr * option pystr)) dflt :
  (forall v, ~ In (k, v) entries) -> assoc_last k entries dflt = dflt.
Proof.
  revert dflt. induction entries as [|[k' v] entries IH]; intros dflt H;
    [reflexivity|].
  simpl. rewrite IH by (intros v' Hv'; apply (H v'); now right).
  rewrite bool_decide_eq_false_2; [reflexivity|].
  intros ->. apply (H v). now left.
Qed.

Lemma lookup_fold_fill (keys : list pystr) (m : gmap pystr (option pystr)) k :
  ~ In k keys ->
  fold_left (fun m k' => <[k' := None]> m) keys m !! k = m !! k.
Proof.
  revert m. induction keys as [|k' keys IH]; intros m H; [reflexivity|].
  simpl. rewrite IH by (intros Hk; apply H; now right).
  apply lookup_insert_ne. intros ->. apply H. now left.
Qed.

(** A key that the header does not name is not in the dictionary of a row. *)
Lemma make_row_no_key (header : list pystr) row k :
  ~ In k header -> items (make_row header row) !! k = None.
Proof.
  intros H.
  assert (dict_of (zip header (List.map Some row)) !! k = None) as Hd.
  { rewrite lookup_dict_of. apply assoc_last_absent. intros v Hv.
    apply list_elem_of_In, elem_of_zip_l, list_elem_of_In in Hv. now apply H. }
  unfold make_row. destruct (_ <? _)%nat; [exact Hd|].
  simpl items. rewrite lookup_fold_fill; [exact Hd|].
  intros Hk. apply H.
  rewrite <- (firstn_skipn (length row) header). apply in_or_app. now right.
Qed.

Lemma update_metadata_csv_no_key fs path content (header : list pystr) raws r :
  fs !! path = Some content ->
  reader SEMICOLON content = Ok (header :: raws) ->
  ~ In (ustr "ModArchiveID") header ->
  existsb is_row raws = true ->
  update_metadata_csv path r fs
  = Raised KeyError (ensure_csv_exists CSV_FILENAME fs).
Proof.
  intros Hfs Hread Hkey Hrow. unfold update_metadata_csv.
  rewrite (ensure_csv_exists_lookup _ _ _ Hfs), (DictReader_rows _ _ _ Hread).
  cbn [bind].
  destruct (List.filter is_row raws) as [|row rows] eqn:E.
  - apply existsb_exists in Hrow as (row & Hin & Hrow).
    assert (In row (List.filter is_row raws)) as Hf
      by (apply List.filter_In; auto).
    rewrite E in Hf. destruct Hf.
  - cbn [List.map keep_others]. now rewrite make_row_no_key.
Qed.



Lemma keep_others_raises key (rows : list dictrow) e :
  keep_others key rows = Raise e -> e = KeyError.
Proof.
  induction rows as [|row rows IH]; [easy|]. simpl.
  destruct (items row !! ustr "ModArchiveID"); [|now intros [= <-]].
  destruct (keep_others key rows); [easy|]. simpl. intros [= <-]. now apply IH.
Qed.

Lemma writerows_raises (rows : list dictrow) (written written' : pystr) e :
  writerows rows written = (written', Some e) -> e = ValueError.
Proof.
  revert written. induction rows as [|row rows IH]; intros written; [easy|].
  simpl. unfold dict_to_list at 1.
  destruct (_ && _); [apply IH|now intros [= _ <-]].
Qed.

Lemma update_metadata_csv_raised fs path r e fs' :
  update_metadata_csv path r fs = Raised e fs' ->
  (e = KeyError /\ fs' = ensure_csv_exists CSV_FILENAME fs)
  \/ (e = ValueError
      /\ exists c, fs' = <[path := c]> (ensure_csv_exists CSV_FILENAME fs)).
Proof.
  unfold update_metadata_csv.
  destruct (match ensure_csv_exists CSV_FILENAME fs !! path with
            | Some content =>
                let* existing := DictReader SEMICOLON content in
                keep_others (ModArchiveID r) existing
            | None => Ok []
            end) as [loaded|e'] eqn:El.
  - destruct (writerows _ _) as [c [e'|]] eqn:Ew; [|easy].
    intros [= <- <-]. right. split; [|eauto].
    eapply writerows_raises; eassumption.
  - intros [= <- <-]. left. split; [|reflexivity].
    destruct (ensure_csv_exists CSV_FILENAME fs !! path) as [content|];
      [|easy].
    unfold DictReader in El.
    destruct (reader_returns SEMICOLON content) as [rows Hr].
    rewrite Hr in El. cbn [bind] in El.
    destruct rows; [easy|]. cbn [bind] in El.
    eapply keep_others_raises; eassumption.
Qed.



End MoreCatalogFacts.

(** * Properties of [main] *)

Section MainFacts.

Variable alnum_beyond_latin1 : N -> bool.
Variable lower_beyond_ascii : pystr -> pystr.
Variable html_parser : pystr -> list node.
Variable requests_get : pystr -> Response.

Local Abbreviation sanitize := (sanitize_filename alnum_beyond_latin1).
Local Abbreviation run_main :=
  (main alnum_beyond_latin1 lower_beyond_ascii html_parser requests_get).
Local Abbreviation dest_path :=
  (dest_path_of alnum_beyond_latin1).
Local Abbreviation dest_dir := (dest_dir_of alnum_beyond_latin1).
Local Abbreviation ext_of := (resolve_ext lower_beyond_ascii).

Implicit Types (args : Args) (w : world) (meta : metadata).
Implicit Types (g f title artist genre ext : pystr).

Lemma sanitize_no_slash s : ~ In SLASH (sanitize s).
Proof. now apply sanitize_excludes. Qed.

Lemma sanitize_no_dot s : ~ In DOT (sanitize s).
Proof. now apply sanitize_excludes. Qed.

Lemma starts_with_slash_head f :
  starts_with (ustr "/") f = true -> head f = Some SLASH.
Proof.
  destruct f as [|c f]; [easy|].
  change (starts_with (ustr "/") (c :: f)) with ((SLASH =? c) && true).
  rewrite andb_true_r. intros H. apply N.eqb_eq in H as <-. reflexivity.
Qed.

Lemma not_starts_with_slash f :
  (forall c, head f = Some c -> c <> SLASH) ->
  starts_with (ustr "/") f = false.
Proof.
  intros H. destruct (starts_with (ustr "/") f) eqn:E; [|reflexivity].
  apply starts_with_slash_head in E. now apply H in E.
Qed.

Lemma head_In (l : pystr) c : head l = Some c -> In c l.
Proof. destruct l; [easy|]. intros [= ->]. now left. Qed.

Lemma path_join_dot g :
  ~ In SLASH g -> path_join (ustr ".") g = ustr "./" ++ g.
Proof.
  intros H. unfold path_join. rewrite not_starts_with_slash; [reflexivity|].
  intros c Hc ->. apply H. now apply head_In.
Qed.

Lemma path_join_dir g f :
  ~ In SLASH g -> starts_with (ustr "/") f = false ->
  path_join (ustr "./" ++ g) f
  = ustr "./" ++ g ++ (if is_empty g then [] else ustr "/") ++ f.
Proof.
  intros Hg Hf. unfold path_join. rewrite Hf.
  destruct g as [|c g]; [reflexivity|].
  change (is_empty (ustr "./" ++ c :: g)) with false.
  rewrite not_starts_with_slash.
  - cbn [orb is_empty]. now rewrite <- !app_assoc.
  - intros x Hx ->. apply Hg.
    change (ustr "./" ++ c :: g) with ([DOT; SLASH] ++ c :: g) in Hx.
    rewrite rev_app_distr in Hx.
    destruct (rev (c :: g)) as [|y l] eqn:E.
    + apply (f_equal (@length N)) in E. rewrite length_rev in E. easy.
    + injection Hx as ->. apply in_rev. rewrite E. now left.
Qed.

Lemma filename_not_absolute title artist ext :
  starts_with (ustr "/")
    (filename_of alnum_beyond_latin1 title artist ext) = false.
Proof.
  apply not_starts_with_slash. intros c Hc ->. unfold filename_of in Hc.
  destruct (sanitize title) as [|x b] eqn:E; [discriminate Hc|].
  injection Hc as ->. apply (sanitize_no_slash title). rewrite E. now left.
Qed.

Lemma dest_path_unfold title artist genre ext :
  dest_path title artist genre ext
  = ustr "./" ++ sanitize genre
    ++ (if is_empty (sanitize genre) then [] else ustr "/")
    ++ sanitize title ++ ustr "-" ++ sanitize artist ++ ustr "." ++ ext.
Proof.
  unfold dest_path_of, dest_dir_of.
  rewrite path_join_dot by apply sanitize_no_slash.
  rewrite path_join_dir;
    [reflexivity|apply sanitize_no_slash|apply filename_not_absolute].
Qed.

Lemma dest_path_not_catalog title artist genre ext :
  dest_path title artist genre ext <> CSV_FILENAME.
Proof. rewrite dest_path_unfold. discriminate. Qed.

(** X6: where a module is stored.  Whatever the title, the artist and
    the genre are, the destination is the relative path [./], the
    sanitised genre as directory (left out with its separator when it is
    empty), then [<title>-<artist>.<ext>] with the sanitised title and
    artist; and none of the three sanitised parts holds a path separator
    or a dot, so none of them names another directory.  The extension is
    taken as it is. *)
Theorem dest_path_shape title artist genre ext :
  dest_path_of alnum_beyond_latin1 title artist genre ext
  = ustr "./" ++ sanitize_filename alnum_beyond_latin1 genre
    ++ (if is_empty (sanitize_filename alnum_beyond_latin1 genre)
        then [] else ustr "/")
    ++ sanitize_filename alnum_beyond_latin1 title ++ ustr "-"
    ++ sanitize_filename alnum_beyond_latin1 artist ++ ustr "." ++ ext
  /\ (forall part, In part [title; artist; genre] ->
        ~ In SLASH (sanitize_filename alnum_beyond_latin1 part)
        /\ ~ In DOT (sanitize_filename alnum_beyond_latin1 part)).
Proof.
  split; [apply dest_path_unfold|].
  intros part _. split; [apply sanitize_no_slash|apply sanitize_no_dot].
Qed.

(** The fallbacks of [main].  The extension is never empty (an empty
    format gives [mod]), and without the option [--genre] the genre is
    never empty (an empty scraped genre gives [Unknown]); the option,
    when given, is taken as it is, the empty string included. *)
Lemma main_fallbacks args meta :
  resolve_ext lower_beyond_ascii meta <> []
  /\ (args_genre args = None -> resolve_genre args meta <> [])
  /\ (forall g, args_genre args = Some g -> resolve_genre args meta = g)
  /\ (format meta = [] -> resolve_ext lower_beyond_ascii meta = ustr "mod")
  /\ (genre meta = [] -> args_genre args = None ->
      resolve_genre args meta = ustr "Unknown").
Proof.
  unfold resolve_ext, resolve_genre. repeat split.
  - destruct (lower lower_beyond_ascii (format meta)); easy.
  - intros ->. destruct (genre meta); easy.
  - now intros g ->.
  - now intros ->.
  - now intros -> ->.
Qed.

Lemma insert_ensure_csv_exists (fs : filesystem) (path v : pystr) :
  <[path := v]> (ensure_csv_exists path fs) = <[path := v]> fs.
Proof.
  unfold ensure_csv_exists. destruct (path_exists fs path); [reflexivity|].
  apply insert_insert_eq.
Qed.

Lemma fetch_html_inr mod_id soup :
  fetch_html html_parser requests_get mod_id = inr soup ->
  raise_for_status (requests_get (format_mod_id MODULE_PAGE_TEMPLATE mod_id))
  = false.
Proof. unfold fetch_html. now destruct (raise_for_status _). Qed.

(** A run that reaches the catalogue with a usable file. *)
Lemma main_run args w soup meta title (rows : list ModuleRecord) :
  fetch_html html_parser requests_get (args_mod_id args) = inr soup ->
  scrape_metadata soup = Ok meta ->
  resolve_title args soup = Ok title ->
  raise_for_status
    (requests_get (format_mod_id DOWNLOAD_URL_TEMPLATE (args_mod_id args)))
  = false ->
  catalog_at (world_files w) CSV_FILENAME rows ->
  run_main args w
  = Finished
      (World
         (<[CSV_FILENAME :=
              catalog_text
                (upsert rows
                   (catalog_record meta title (resolve_artist args meta)
                      (resolve_genre args meta)
                      (dest_path title (resolve_artist args meta)
                                 (resolve_genre args meta) (ext_of meta))))]>
            (<[dest_path title (resolve_artist args meta)
                         (resolve_genre args meta) (ext_of meta) :=
                 resp_content
                   (requests_get
                      (format_mod_id DOWNLOAD_URL_TEMPLATE (args_mod_id args)))]>
               (world_files w)))
         ({[dest_dir (resolve_genre args meta)]} ∪ world_dirs w)).
Proof.
  intros Hf Hs Ht Hd Hc. unfold main. rewrite Hf, Hs, Ht.
  unfold download_module. rewrite Hd. cbn [world_files world_dirs].
  erewrite update_metadata_csv_upsert.
  - now rewrite insert_ensure_csv_exists.
  - destruct Hc as [Hc|[Hc ->]]; [left|right; split; [|reflexivity]];
      rewrite lookup_insert_ne by apply dest_path_not_catalog; exact Hc.
Qed.


Lemma scrape_metadata_raise soup e :
  scrape_metadata soup = Raise e -> e = AttributeError.
Proof.
  destruct (existsb lacks_direct_text (h2_headers soup)) eqn:E.
  - rewrite (scrape_metadata_raises soup E). now intros [= <-].
  - destruct (scrape_metadata_returns soup E) as (d & -> & _). easy.
Qed.

Lemma resolve_title_raise args soup e :
  resolve_title args soup = Raise e -> e = AttributeError \/ e = NameError.
Proof.
  unfold resolve_title. destruct (args_name args); [easy|].
  destruct (title_header soup) as [h|].
  - destruct (direct_text (children_of h)); [easy|]. intros [= <-]. now left.
  - intros [= <-]. now right.
Qed.

(** How a run can fail, and what it leaves behind. *)
Lemma main_aborted args w (f : failure) w' :
  run_main args w = Aborted f w' ->
  (world_files w' = world_files w
   /\ ((exists status, f = HTTPError status)
       \/ f = PythonError AttributeError \/ f = PythonError NameError))
  \/ ((f = PythonError KeyError \/ f = PythonError ValueError)
      /\ exists dest,
           dest <> CSV_FILENAME
           /\ world_files w' !! dest
              = Some (resp_content
                        (requests_get
                           (format_mod_id DOWNLOAD_URL_TEMPLATE
                                          (args_mod_id args))))).
Proof.
  unfold main, fetch_html, download_module.
  destruct (raise_for_status (requests_get (format_mod_id MODULE_PAGE_TEMPLATE _))).
  { intros [= <- <-]. left. split; [reflexivity|]. left. eauto. }
  destruct (scrape_metadata _) as [meta|e] eqn:Es.
  2:{ intros [= <- <-]. left. split; [reflexivity|].
      apply scrape_metadata_raise in Es as ->. auto. }
  destruct (resolve_title args _) as [title|e] eqn:Et.
  2:{ intros [= <- <-]. left. split; [reflexivity|].
      apply resolve_title_raise in Et as [-> | ->]; auto. }
  destruct (raise_for_status (requests_get (format_mod_id DOWNLOAD_URL_TEMPLATE _))).
  { intros [= <- <-]. left. split; [reflexivity|]. left. eauto. }
  cbn [world_files world_dirs].
  destruct (update_metadata_csv _ _ _) as [fs'|e fs'] eqn:Eu; [easy|].
  intros [= <- <-]. right. split.
  - apply update_metadata_csv_raised in Eu as [[-> _]|[-> _]]; auto.
  - eexists. split; [apply dest_path_not_catalog|].
    cbn [world_files].
    match type of Eu with
    | update_metadata_csv _ ?r ?fs = _ =>
        pose proof (files_update_other fs CSV_FILENAME r _
                      (dest_path_not_catalog title (resolve_artist args meta)
                         (resolve_genre args meta) (ext_of meta))) as H
    end.
    rewrite Eu in H. simpl files in H. rewrite H.
    rewrite ensure_csv_exists_other by
      (intros E; symmetry in E; revert E; apply dest_path_not_catalog).
    apply lookup_insert_eq.
Qed.


Lemma scrape_metadata_no_info soup meta :
  find_info_section soup = None ->
  scrape_metadata soup = Ok meta ->
  mod_id meta = Unknown /\ md5 meta = Unknown /\ format meta = Unknown
  /\ channels meta = Unknown /\ genre meta = Unknown.
Proof.
  unfold scrape_metadata. intros -> E. simpl in E.
  apply artist_loop_info in E as (-> & -> & -> & -> & ->). repeat split.
Qed.



End MainFacts.





(** * Sanity checks of the embedding on concrete inputs

    The expected values are those of CPython 3.11. *)

Section Checks.

Example strip_spaces : strip (ustr "  a b ") = ustr "a b".
Proof. reflexivity. Qed.

Example strip_unicode_spaces : strip [160; 97; 8232; 98; 12288; 10] = [97; 8232; 98].
Proof. reflexivity. Qed.

Example splitlines_mixed :
  splitlines [97; 13; 10; 98; 10; 10; 99; 13] = [[97]; [98]; []; [99]].
Proof. reflexivity. Qed.

Example split_colon_once_two : split_colon_once (ustr "a:b:c") = [ustr "a"; ustr "b:c"].
Proof. reflexivity. Qed.

Example split_colon_once_none : split_colon_once (ustr "abc") = [ustr "abc"].
Proof. reflexivity. Qed.

Example sanitize_filename_title :
  sanitize_filename (fun _ => false) (ustr " My Song! ") = ustr "My Song".
Proof. reflexivity. Qed.

Example sanitize_filename_artist :
  sanitize_filename (fun _ => false) (ustr "DJ/Foo") = ustr "DJFoo".
Proof. reflexivity. Qed.

Example writerow_plain :
  writerow SEMICOLON [ustr "5"; ustr "a b"; []] = ustr "5;a b;" ++ [CR; LF].
Proof. reflexivity. Qed.

Example writerow_quoted :
  writerow SEMICOLON [ustr "a;b"; [97; 34; 98]; [13]]
  = [34; 97; 59; 98; 34; 59; 34; 97; 34; 34; 98; 34; 59; 34; 13; 34; 13; 10].
Proof. reflexivity. Qed.

Example writerow_single_empty : writerow SEMICOLON [[]] = [34; 34; 13; 10].
Proof. reflexivity. Qed.

Example reader_quoted :
  reader SEMICOLON (ustr "a;" ++ [34] ++ ustr "b;c" ++ [34] ++ ustr ";d" ++ [CR; LF])
  = Ok [[ustr "a"; ustr "b;c"; ustr "d"]].
Proof. reflexivity. Qed.

Example reader_newline_in_quotes :
  reader SEMICOLON [34; 97; 13; 10; 98; 34; 59; 99; 13; 10; 100; 59; 101; 13; 10]
  = Ok [[[97; 13; 10; 98]; [99]]; [[100]; [101]]].
Proof. reflexivity. Qed.

Example reader_blank_line :
  reader SEMICOLON [97; 59; 98; 13; 10; 13; 10; 99; 13; 10]
  = Ok [[[97]; [98]]; []; [[99]]].
Proof. reflexivity. Qed.

Example reader_quote_inside_field :
  reader SEMICOLON [34; 97; 34; 98; 59; 99; 13; 10] = Ok [[[97; 98]; [99]]].
Proof. reflexivity. Qed.

Example reader_open_quote_at_end :
  reader SEMICOLON [34; 97; 98; 99] = Ok [[[97; 98; 99]]].
Proof. reflexivity. Qed.

Example reader_lone_carriage_returns :
  reader SEMICOLON [97; 59; 98; 13; 13; 10; 99; 13; 10]
  = Ok [[[97]; [98]]; []; [[99]]].
Proof. reflexivity. Qed.

Example scrape_metadata_sample : scrape_metadata page_info = Ok sample_metadata.
Proof. vm_compute. reflexivity. Qed.

Example scrape_metadata_plain : scrape_metadata page_plain = Ok all_unknown.
Proof. vm_compute. reflexivity. Qed.

(** A line with two labels goes to the first label of the chain, and the
    value is what follows the first colon of the line. *)
Example scan_line_first_label :
  scan_line all_unknown (ustr "Genre: x MD5: y")
  = Ok (set_md5 (ustr "x MD5: y") all_unknown).
Proof. vm_compute. reflexivity. Qed.

(** A later line with the same label replaces the value of an earlier one. *)
Example scan_lines_last_wins :
  scan_lines all_unknown [ustr "Format: IT"; ustr "note"; ustr "Format: XM"]
  = Ok (set_format (ustr "XM") all_unknown).
Proof. vm_compute. reflexivity. Qed.

Example main_title_override :
  main_title (MkArgs 42 None (Some (ustr "My Song")) None) page_plain
  = Ok (ustr "My Song").
Proof. vm_compute. reflexivity. Qed.

Example main_title_heading :
  main_title (MkArgs 42 None None None)
             [Elem (ustr "h1") [Text (ustr " Some Song ")]]
  = Ok (ustr "Some Song").
Proof. vm_compute. reflexivity. Qed.

Example format_mod_id_page :
  format_mod_id MODULE_PAGE_TEMPLATE 1234
  = ustr "https://modarchive.org/index.php?request=view_by_moduleid&query=1234".
Proof. reflexivity. Qed.

Example format_mod_id_negative :
  format_mod_id DOWNLOAD_URL_TEMPLATE (-5)
  = ustr "https://api.modarchive.org/downloads.php?moduleid=-5".
Proof. reflexivity. Qed.

Example path_join_cases :
  path_join (ustr ".") [] = ustr "./"
  /\ path_join (ustr "./") (ustr "x-y.z") = ustr "./x-y.z"
  /\ path_join (ustr "./g") (ustr "-a.it") = ustr "./g/-a.it"
  /\ path_join (ustr ".") (ustr "/abs") = ustr "/abs".
Proof. repeat split. Qed.

Example dest_path_of_sample :
  dest_path_of no_wide_alnum (ustr "My Song!") (ustr "DJ/Foo")
               (ustr "Chip Tune") (ustr "it")
  = ustr "./Chip Tune/My Song-DJFoo.it".
Proof. reflexivity. Qed.

Example main_sample_rows :
  data_rows
    (world_files
       (world_of (main no_wide_alnum same_case sample_parser sample_server
                       sample_args empty_world)))
    CSV_FILENAME
  = Some [[ustr "1234"; ustr "Space Debris"; ustr "abcd1234"; ustr "IT";
           ustr "8"; ustr "Chiptune"; ustr "Captain";
           ustr "./Chiptune/Space Debris-Captain.it"]].
Proof. vm_compute. reflexivity. Qed.

Example main_page_only :
  main no_wide_alnum same_case sample_parser page_only_server sample_args
       empty_world
  = Aborted (HTTPError 404)
            (World empty_directory {[ustr "./Chiptune"]}).
Proof. vm_compute. reflexivity. Qed.

End Checks.
